(** * KiloCheck: the extraction-to-result pipeline

    A shallow embedding of the TypeScript sources of KiloCheck
    (weight normalisation, unit price calculation, error classification,
    retry with backoff, circuit breaker, validation of extracted data)
    and the properties the design document states about them.

    JavaScript numbers are IEEE 754 binary64 values: they are modelled by
    Rocq's primitive floats, whose operations are the binary64 ones.
    Object literals used as tables are finite maps over their own keys,
    read through a host that supplies the properties they inherit.
    Strings are held as their UTF-8 encoding. *)

From Stdlib Require Import ZArith List Ascii String Bool Lia Floats QArith Qround.
From stdpp Require Import gmap strings pretty.
Import ListNotations.

Set Warnings "-inexact-float".

Local Open Scope string_scope.
Local Open Scope Z_scope.

(** ** JavaScript values *)

Module JS.

(** [number]: an IEEE 754 double. *)
Definition number : Type := float.
Bind Scope float_scope with number.

Definition is_nan (x : number) : bool := negb (PrimFloat.eqb x x).

(** [ToBoolean] on a number: [0], [-0] and [NaN] are falsy. *)
Definition truthy (x : number) : bool :=
  negb (PrimFloat.eqb x 0%float || is_nan x).

(** [x || d] where [x] may be [undefined]. *)
Definition or_default (x : option number) (d : number) : number :=
  match x with
  | Some v => if truthy v then v else d
  | None => d
  end.

(** An integer of magnitude below 2^63 as a number (exact up to 2^53). *)
Definition of_Z (z : Z) : number :=
  if z <? 0 then PrimFloat.opp (PrimFloat.of_uint63 (Uint63.of_Z (- z)))
  else PrimFloat.of_uint63 (Uint63.of_Z z).

(** [Math.round]: the integer nearest to [x], ties towards +infinity;
    integers, zeros, infinities and NaN are returned as they are, and a
    result of zero keeps the sign of a negative argument. *)
Definition Math_round (x : number) : number :=
  match Prim2SF x with
  | S754_finite s m e =>
      if 0 <=? e then x
      else
        let k := - e in
        let sm := if s then Z.neg m else Z.pos m in
        let n := (2 * sm + 2 ^ k) / 2 ^ (k + 1) in
        if n =? 0 then (if s then (-0)%float else 0%float) else of_Z n
  | _ => x
  end.

(** [Math.min] of two numbers. *)
Definition Math_min (a b : number) : number :=
  if is_nan a || is_nan b then nan
  else if PrimFloat.ltb a b then a
  else if PrimFloat.ltb b a then b
  else if PrimFloat.get_sign a then a else b.

(** The exact rational value of a finite number. *)
Definition to_Q (x : number) : option Q :=
  match Prim2SF x with
  | S754_zero _ => Some 0%Q
  | S754_finite s m e =>
      let sm := if s then Z.neg m else Z.pos m in
      Some (if 0 <=? e then inject_Z (sm * 2 ^ e)
            else Qmake sm (Z.to_pos (2 ^ (- e))))
  | _ => None
  end.

(** [Array.prototype.includes] on an array of strings. *)
Definition includes (l : list string) (s : string) : bool :=
  existsb (String.eqb s) l.

(** Strings are held as their UTF-8 encoding (of well-formed strings).
    [byte c] is the value of one byte of it. *)
Definition byte (c : Ascii.ascii) : nat := Ascii.nat_of_ascii c.

Definition is_continuation (c : Ascii.ascii) : bool :=
  ((128 <=? byte c) && (byte c <? 192))%nat.

(** The UTF-16 code units of the code point a byte starts, and the
    continuation bytes that follow it: code points from U+10000 on take
    four bytes and two code units. *)
Definition lead (c : Ascii.ascii) : nat * nat :=
  let n := byte c in
  if (n <? 192)%nat then (1, 0)%nat
  else if (n <? 224)%nat then (1, 1)%nat
  else if (n <? 240)%nat then (1, 2)%nat
  else (2, 3)%nat.

Fixpoint length_from (pending : nat) (s : string) : nat :=
  match s with
  | EmptyString => 0
  | String c r =>
      if (0 <? pending)%nat && is_continuation c
      then length_from (pending - 1) r
      else (fst (lead c) + length_from (snd (lead c)) r)%nat
  end.

(** [s.length]: the number of UTF-16 code units of [s]. *)
Definition String_length (s : string) : nat := length_from 0 s.

(** The white space and line terminators that [String.prototype.trim]
    removes, by their UTF-8 encoding: U+0009 to U+000D and U+0020 in one
    byte; U+00A0 in two; U+1680, U+2000 to U+200A, U+2028, U+2029,
    U+202F, U+205F, U+3000 and U+FEFF in three. *)
Definition is_space1 (a : nat) : bool :=
  ((9 <=? a) && (a <=? 13) || (a =? 32))%nat.

Definition is_space2 (a b : nat) : bool :=
  ((a =? 194) && (b =? 160))%nat.

Definition is_space3 (a b c : nat) : bool :=
  ((a =? 225) && (b =? 154) && (c =? 128)
   || (a =? 226) && (b =? 128)
      && ((128 <=? c) && (c <=? 138) || (c =? 168) || (c =? 169)
          || (c =? 175))
   || (a =? 226) && (b =? 129) && (c =? 159)
   || (a =? 227) && (b =? 128) && (c =? 128)
   || (a =? 239) && (b =? 187) && (c =? 191))%nat.

(** Removes the white space at the head of [s]; with [backwards] the
    bytes of [s] are in reverse order, and so are those of each code
    point. *)
Fixpoint strip (backwards : bool) (s : string) : string :=
  match s with
  | String a r =>
      if is_space1 (byte a) then strip backwards r
      else
        match r with
        | String b r2 =>
            if (if backwards then is_space2 (byte b) (byte a)
                else is_space2 (byte a) (byte b))
            then strip backwards r2
            else
              match r2 with
              | String c r3 =>
                  if (if backwards then is_space3 (byte c) (byte b) (byte a)
                      else is_space3 (byte a) (byte b) (byte c))
                  then strip backwards r3
                  else s
              | EmptyString => s
              end
        | EmptyString => s
        end
  | EmptyString => EmptyString
  end.

Fixpoint rev_string (s acc : string) : string :=
  match s with
  | String c r => rev_string r (String c acc)
  | EmptyString => acc
  end.

Definition trim (s : string) : string :=
  rev_string (strip true (rev_string (strip false s) "")) "".

(** A thrown value or a returned one. *)
Inductive result (A E : Type) : Type :=
| Ok (a : A)
| Throw (e : E).
Arguments Ok {A E} a.
Arguments Throw {A E} e.

Definition bind {A B E} (x : result A E) (f : A -> result B E)
  : result B E :=
  match x with
  | Ok a => f a
  | Throw e => Throw e
  end.

(** A value read from an object: [undefined], a number, a string, or
    any other value (an object, a function, [null], a boolean, ...),
    which belongs to the host. *)
Inductive value (O : Type) : Type :=
| VUndefined
| VNumber (x : number)
| VString (s : string)
| VOther (o : O).
Arguments VUndefined {O}.
Arguments VNumber {O} x.
Arguments VString {O} s.
Arguments VOther {O} o.

(** What the sources take from the engine they run on. An object literal
    inherits from [Object.prototype]: reading a property it does not own
    finds [constructor], [toString], [__proto__] and the like.
    [inherited k] is what such a read gives ([VUndefined] when no object
    of the chain has [k]); [get v k] is [v[k]] for a value that is not
    one of the literals of the sources, which can throw; [other_truthy]
    and [other_toString] are [ToBoolean] and [ToString] on the host's
    values, and [Number_toString] is [ToString] on numbers. *)
Record Host := {
  other : Type;
  exception : Type;
  inherited : string -> value other;
  get : value other -> string -> result (value other) exception;
  other_truthy : other -> bool;
  other_toString : other -> result string exception;
  Number_toString : number -> string
}.

Definition ToBoolean {h : Host} (v : value (other h)) : bool :=
  match v with
  | VUndefined => false
  | VNumber x => truthy x
  | VString s => negb (String.eqb s "")
  | VOther o => other_truthy h o
  end.

Definition ToString {h : Host} (v : value (other h))
  : result string (exception h) :=
  match v with
  | VUndefined => Ok "undefined"
  | VNumber x => Ok (Number_toString h x)
  | VString s => Ok s
  | VOther o => other_toString h o
  end.

(** [table[k]] for an object literal [table] whose own properties are
    the entries of the map. *)
Definition read {A} (h : Host) (inj : A -> value (other h))
    (table : gmap string A) (k : string) : value (other h) :=
  match table !! k with
  | Some a => inj a
  | None => inherited h k
  end.

End JS.
Import JS.

(** ** types/index.ts *)

Record PriceField := {
  price_value : number;
  price_currency : string;
  price_confidence : number
}.

Record WeightField := {
  weight_value : number;
  weight_unit : string;
  weight_confidence : number
}.

Record ProductField := {
  product_name : string;
  product_brand : string;
  product_confidence : number
}.

(** A field that is missing from the parsed object is [None]. *)
Record ExtractedData := {
  price : option PriceField;
  weight : option WeightField;
  product : option ProductField
}.

Record NormalizedWeight := {
  nw_value : number;
  nw_unit : string;
  originalValue : number;
  originalUnit : string
}.

Record UnitPriceResult := {
  pricePerUnit : number;
  upr_unit : string;
  upr_currency : string;
  originalPrice : number;
  originalWeight : NormalizedWeight
}.

Inductive ErrorCode : Type :=
| INVALID_IMAGE_FORMAT
| IMAGE_TOO_LARGE
| NO_PRICE_DETECTED
| NO_WEIGHT_DETECTED
| NO_PRODUCT_DETECTED
| API_RATE_LIMIT
| API_ERROR
| NETWORK_ERROR.

Definition ErrorCode_eqb (a b : ErrorCode) : bool :=
  match a, b with
  | INVALID_IMAGE_FORMAT, INVALID_IMAGE_FORMAT
  | IMAGE_TOO_LARGE, IMAGE_TOO_LARGE
  | NO_PRICE_DETECTED, NO_PRICE_DETECTED
  | NO_WEIGHT_DETECTED, NO_WEIGHT_DETECTED
  | NO_PRODUCT_DETECTED, NO_PRODUCT_DETECTED
  | API_RATE_LIMIT, API_RATE_LIMIT
  | API_ERROR, API_ERROR
  | NETWORK_ERROR, NETWORK_ERROR => true
  | _, _ => false
  end.

Record AppError := {
  code : ErrorCode;
  message : string;
  userMessage : string;
  suggestions : list string;
  recoverable : bool
}.

(** ** lib/WeightNormalizer.ts *)

Module WeightNormalizer.

(** The messages of the errors the class throws, with their arguments. *)
Inductive Error : Type :=
| Unsupported_unit (unit : string)
| Invalid_weight_value (value : number)
| Cannot_convert (fromUnit toUnit : string).

Definition isValidUnit (unit : string) : bool :=
  includes ["g"; "kg"; "ml"; "l"] unit.

Definition normalize (w : WeightField) : result NormalizedWeight Error :=
  let value := weight_value w in
  let unit := weight_unit w in
  if negb (isValidUnit unit) then Throw (Unsupported_unit unit)
  else if PrimFloat.leb value 0 then Throw (Invalid_weight_value value)
  else
    let mk v u :=
      Ok {| nw_value := v; nw_unit := u;
            originalValue := value; originalUnit := unit |} in
    if String.eqb unit "g" then mk (PrimFloat.div value 1000) "kg"
    else if String.eqb unit "kg" then mk value "kg"
    else if String.eqb unit "ml" then mk (PrimFloat.div value 1000) "l"
    else if String.eqb unit "l" then mk value "l"
    else Throw (Unsupported_unit unit).

(** The table of [getConversionFactor]. *)
Definition conversions : gmap string (gmap string number) :=
  <[ "g" := <[ "kg" := PrimFloat.div 1 1000 ]> (<[ "g" := 1%float ]> ∅) ]>
  (<[ "kg" := <[ "kg" := 1%float ]> (<[ "g" := 1000%float ]> ∅) ]>
  (<[ "ml" := <[ "l" := PrimFloat.div 1 1000 ]> (<[ "ml" := 1%float ]> ∅) ]>
  (<[ "l" := <[ "l" := 1%float ]> (<[ "ml" := 1000%float ]> ∅) ]> ∅))).

(** [conversions[fromUnit]] and [conversions[fromUnit][toUnit]] are
    reads of object literals: a name that is not a key of the table is
    looked up on the prototype chain. The value found is returned as it
    is; the two reads of [conversions[fromUnit][toUnit]] give the same
    value. What is thrown is the [Error] of the method or what the host
    threw while the property was read. *)
Definition getConversionFactor (h : Host) (fromUnit toUnit : string)
  : result (value (other h)) (Error + exception h) :=
  let unsupported := Throw (inl (Cannot_convert fromUnit toUnit)) in
  match conversions !! fromUnit with
  | Some row =>
      let factor := read h VNumber row toUnit in
      if ToBoolean factor then Ok factor else unsupported
  | None =>
      let row := inherited h fromUnit in
      if negb (ToBoolean row) then unsupported
      else
        match get h row toUnit with
        | Throw e => Throw (inr e)
        | Ok factor => if ToBoolean factor then Ok factor else unsupported
        end
  end.

End WeightNormalizer.

(** ** lib/UnitPriceCalculator.ts *)

Module UnitPriceCalculator.

Inductive Error : Type :=
| Invalid_price_value (value : number)
| Invalid_normalized_weight_value (value : number).

Definition calculate (p : PriceField) (normalizedWeight : NormalizedWeight)
  : result UnitPriceResult Error :=
  if PrimFloat.leb (price_value p) 0 then
    Throw (Invalid_price_value (price_value p))
  else if PrimFloat.leb (nw_value normalizedWeight) 0 then
    Throw (Invalid_normalized_weight_value (nw_value normalizedWeight))
  else
    let pricePerUnit :=
      PrimFloat.div (price_value p) (nw_value normalizedWeight) in
    let roundedPricePerUnit :=
      PrimFloat.div (Math_round (PrimFloat.mul pricePerUnit 100)) 100 in
    Ok {| pricePerUnit := roundedPricePerUnit;
          upr_unit := nw_unit normalizedWeight;
          upr_currency := price_currency p;
          originalPrice := price_value p;
          originalWeight := normalizedWeight |}.

End UnitPriceCalculator.

(** ** lib/errorHandling.ts *)

Module ErrorHandling.

Record ErrorRecoveryStrategy := {
  strategy_maxRetries : Z;
  strategy_backoffMultiplier : number;
  strategy_retryableErrors : list ErrorCode
}.

Definition API_RETRY_STRATEGY : ErrorRecoveryStrategy :=
  {| strategy_maxRetries := 3;
     strategy_backoffMultiplier := 1.5%float;
     strategy_retryableErrors := [NETWORK_ERROR; API_RATE_LIMIT; API_ERROR] |}.

Inductive ErrorCategory : Type :=
| USER_ERROR
| SYSTEM_ERROR
| CRITICAL_ERROR.

Definition ERROR_CATEGORIES (c : ErrorCode) : ErrorCategory :=
  match c with
  | INVALID_IMAGE_FORMAT => USER_ERROR
  | IMAGE_TOO_LARGE => USER_ERROR
  | NO_PRICE_DETECTED => USER_ERROR
  | NO_WEIGHT_DETECTED => USER_ERROR
  | NO_PRODUCT_DETECTED => USER_ERROR
  | API_RATE_LIMIT => SYSTEM_ERROR
  | NETWORK_ERROR => SYSTEM_ERROR
  | API_ERROR => CRITICAL_ERROR
  end.

Definition ErrorCategory_eqb (a b : ErrorCategory) : bool :=
  match a, b with
  | USER_ERROR, USER_ERROR
  | SYSTEM_ERROR, SYSTEM_ERROR
  | CRITICAL_ERROR, CRITICAL_ERROR => true
  | _, _ => false
  end.

Record ErrorInfo := {
  info_title : string;
  info_message : string;
  info_suggestions : list string
}.

Definition dquote : string := String (Ascii.ascii_of_nat 34) EmptyString.

Definition ERROR_MESSAGES (c : ErrorCode) : ErrorInfo :=
  match c with
  | INVALID_IMAGE_FORMAT =>
      {| info_title := "Formato no válido";
         info_message :=
           "El formato de imagen no es compatible. Usa JPEG, PNG o WebP.";
         info_suggestions :=
           [ "Convierte la imagen a JPEG, PNG o WebP";
             "Toma una nueva foto con la cámara";
             "Verifica que el archivo no esté dañado" ] |}
  | IMAGE_TOO_LARGE =>
      {| info_title := "Imagen demasiado grande";
         info_message :=
           "La imagen es demasiado grande. El tamaño máximo es 10MB.";
         info_suggestions :=
           [ "Reduce la resolución de la imagen";
             "Comprime la imagen antes de subirla";
             "Toma una nueva foto con menor calidad" ] |}
  | NO_PRICE_DETECTED =>
      {| info_title := "Precio no encontrado";
         info_message :=
           "No pudimos encontrar el precio en la imagen. Asegúrate de que esté visible y enfocado.";
         info_suggestions :=
           [ "Toma la foto más cerca del precio";
             "Asegúrate de que haya buena iluminación";
             "Verifica que el precio esté claramente visible";
             "Evita reflejos o sombras sobre el precio" ] |}
  | NO_WEIGHT_DETECTED =>
      {| info_title := "Peso no encontrado";
         info_message :=
           "No pudimos identificar el peso o volumen. Verifica que esta información esté clara en la etiqueta.";
         info_suggestions :=
           [ "Asegúrate de que el peso/volumen esté visible";
             "Toma la foto más cerca de la información nutricional";
             "Verifica que la etiqueta esté completa en la imagen";
             "Busca información como " ++ dquote ++ "500g" ++ dquote
               ++ ", " ++ dquote ++ "1L" ++ dquote ++ ", etc." ] |}
  | NO_PRODUCT_DETECTED =>
      {| info_title := "Producto no identificado";
         info_message :=
           "No pudimos identificar el nombre del producto. Asegúrate de que esté visible en la etiqueta.";
         info_suggestions :=
           [ "Toma la foto incluyendo el nombre del producto";
             "Asegúrate de que el texto esté enfocado";
             "Verifica que la etiqueta esté completa";
             "Evita cortar el nombre del producto en la foto" ] |}
  | API_RATE_LIMIT =>
      {| info_title := "Demasiadas solicitudes";
         info_message :=
           "Has realizado demasiadas solicitudes. Espera un momento e intenta de nuevo.";
         info_suggestions :=
           [ "Espera 30 segundos antes de intentar de nuevo";
             "Evita subir múltiples imágenes muy rápido";
             "Intenta de nuevo en unos minutos" ] |}
  | NETWORK_ERROR =>
      {| info_title := "Error de conexión";
         info_message :=
           "Parece que hay un problema de conexión. Verifica tu internet e intenta de nuevo.";
         info_suggestions :=
           [ "Verifica tu conexión a internet";
             "Intenta de nuevo en unos momentos";
             "Cambia a una red más estable si es posible";
             "Recarga la página si el problema persiste" ] |}
  | API_ERROR =>
      {| info_title := "Error del servidor";
         info_message :=
           "Ha ocurrido un error en nuestros servidores. Intenta de nuevo en unos momentos.";
         info_suggestions :=
           [ "Intenta de nuevo en unos minutos";
             "Si el problema persiste, contacta soporte";
             "Verifica que la imagen sea válida" ] |}
  end.

(** [originalMessage || errorInfo.message]: a missing or empty message
    is replaced; [customSuggestions || errorInfo.suggestions]: any array,
    also the empty one, is kept. *)
Definition createAppError (c : ErrorCode) (originalMessage : option string)
    (customSuggestions : option (list string)) : AppError :=
  let errorInfo := ERROR_MESSAGES c in
  let category := ERROR_CATEGORIES c in
  {| code := c;
     message :=
       match originalMessage with
       | Some (String a r) => String a r
       | _ => info_message errorInfo
       end;
     userMessage := info_message errorInfo;
     suggestions :=
       match customSuggestions with
       | Some l => l
       | None => info_suggestions errorInfo
       end;
     recoverable := negb (ErrorCategory_eqb category CRITICAL_ERROR) |}.

Definition includes_code (l : list ErrorCode) (c : ErrorCode) : bool :=
  existsb (ErrorCode_eqb c) l.

Definition isRetryableError (error : AppError)
    (strategy : ErrorRecoveryStrategy) : bool :=
  includes_code (strategy_retryableErrors strategy) (code error).

Definition getErrorCategory (c : ErrorCode) : ErrorCategory :=
  ERROR_CATEGORIES c.

Definition isRecoverableError (error : AppError) : bool :=
  recoverable error.

End ErrorHandling.
Import ErrorHandling.

(** ** lib/retryUtils.ts *)

Module RetryUtils.

(** A thrown value: an [AppError] object, or an [Error] with its message
    (which has no [code] property). *)
Inductive exn : Type :=
| AppErr (e : AppError)
| JsError (msg : string).

Definition exn_code (x : exn) : option ErrorCode :=
  match x with
  | AppErr e => Some (code e)
  | JsError _ => None
  end.

(** The [onRetry] callbacks of the sources; all of them only log. *)
Inductive Observer : Type :=
| ApiCallLogger
| ImageAnalysisLogger (imageType : string) (imageSize : nat)
| CallerObserver (name : string).

Record RetryOptions := {
  maxRetries : option Z;
  baseDelay : option number;
  maxDelay : option number;
  backoffMultiplier : option number;
  retryableErrors : option (list ErrorCode);
  onRetry : option Observer
}.

Definition no_options : RetryOptions :=
  {| maxRetries := None; baseDelay := None; maxDelay := None;
     backoffMultiplier := None; retryableErrors := None; onRetry := None |}.

Definition override {A} (a b : option A) : option A :=
  match b with
  | Some x => Some x
  | None => a
  end.

(** [{ ...a, ...b }] *)
Definition spread (a b : RetryOptions) : RetryOptions :=
  {| maxRetries := override (maxRetries a) (maxRetries b);
     baseDelay := override (baseDelay a) (baseDelay b);
     maxDelay := override (maxDelay a) (maxDelay b);
     backoffMultiplier := override (backoffMultiplier a) (backoffMultiplier b);
     retryableErrors := override (retryableErrors a) (retryableErrors b);
     onRetry := override (onRetry a) (onRetry b) |}.

Definition DEFAULT_RETRY_OPTIONS : RetryOptions :=
  {| maxRetries := Some (strategy_maxRetries API_RETRY_STRATEGY);
     baseDelay := Some 1000%float;
     maxDelay := Some 30000%float;
     backoffMultiplier := Some (strategy_backoffMultiplier API_RETRY_STRATEGY);
     retryableErrors := Some (strategy_retryableErrors API_RETRY_STRATEGY);
     onRetry := None |}.

(** Only the [code] property of the error is read; a thrown value
    without one is not in any list. *)
Definition shouldRetryError (error_code : option ErrorCode)
    (retryableErrors : list ErrorCode) : bool :=
  match error_code with
  | Some c => includes_code retryableErrors c
  | None => false
  end.

(** What a run of the retry driver does, in order. *)
Inductive Event : Type :=
| EvInvoke
| EvOnRetry (observer : Observer) (attempt : Z) (error : exn)
| EvSleep (ms : number).

Record Run (T : Type) := {
  outcome : result T exn;
  calls : nat;
  events : list Event
}.
Arguments outcome {T} _.
Arguments calls {T} _.
Arguments events {T} _.

Section Driver.

(** [Math.pow] is implementation-approximated, and [Math.random] is a
    source of numbers in [0, 1): both are left open. [random i] is the
    [i]-th draw of a run. *)
Variable Math_pow : number -> number -> number.
Variable Math_random : nat -> number.

Definition calculateBackoffDelay (attempt : Z)
    (baseDelay multiplier maxDelay : number) : number :=
  let delay :=
    PrimFloat.mul baseDelay (Math_pow multiplier (of_Z (attempt - 1))) in
  Math_min delay maxDelay.

Definition addJitter (delay jitterFactor r : number) : number :=
  let jitter := PrimFloat.mul (PrimFloat.mul delay jitterFactor) r in
  PrimFloat.add delay jitter.

Context {T : Type}.

(** The operation is a closure over outside state: [operation i] is
    what its [i]-th invocation in this run settles to. *)
Variable operation : nat -> result T exn.
Variable opts : RetryOptions.

(** [for (attempt = 1; attempt <= (opts.maxRetries || 3); attempt++)],
    with [n] iterations left and [i] invocations made so far. *)
Fixpoint attempts (n : nat) (attempt : Z) (i : nat)
    (lastError : option exn) : Run T :=
  match n with
  | O =>
      {| outcome :=
           Throw (match lastError with
                  | Some e => e
                  | None => JsError "Retry failed with unknown error"
                  end);
         calls := 0; events := [] |}
  | S n' =>
      match operation i with
      | Ok v => {| outcome := Ok v; calls := 1; events := [EvInvoke] |}
      | Throw appError =>
          if negb (shouldRetryError (exn_code appError)
                     (default [] (retryableErrors opts)))
          then {| outcome := Throw appError; calls := 1;
                  events := [EvInvoke] |}
          else if match maxRetries opts with
                  | Some m => attempt =? m
                  | None => false
                  end
          then {| outcome := Throw appError; calls := 1;
                  events := [EvInvoke] |}
          else
            let baseDelay := or_default (baseDelay opts) 1000%float in
            let multiplier := or_default (backoffMultiplier opts) 1.5%float in
            let maxDelay := or_default (maxDelay opts) 30000%float in
            let delay :=
              calculateBackoffDelay attempt baseDelay multiplier maxDelay in
            let delayWithJitter :=
              addJitter delay 0.1%float (Math_random i) in
            let notified :=
              match onRetry opts with
              | Some f => [EvOnRetry f attempt appError]
              | None => []
              end in
            let rest := attempts n' (attempt + 1) (S i) (Some appError) in
            {| outcome := outcome rest;
               calls := S (calls rest);
               events := EvInvoke :: notified
                           ++ EvSleep delayWithJitter :: events rest |}
      end
  end.

Definition loop_bound (m : option Z) : Z :=
  match m with
  | Some 0 | None => 3
  | Some m => m
  end.

End Driver.

Section Retry.

Variable Math_pow : number -> number -> number.
Variable Math_random : nat -> number.
Context {T : Type}.

Definition retryWithBackoff (operation : nat -> result T exn)
    (options : RetryOptions) : Run T :=
  let opts := spread DEFAULT_RETRY_OPTIONS options in
  attempts Math_pow Math_random operation opts
    (Z.to_nat (loop_bound (maxRetries opts))) 1 0 None.

Definition retryApiCall (apiCall : nat -> result T exn)
    (options : RetryOptions) : Run T :=
  let apiRetryOptions :=
    spread
      (spread DEFAULT_RETRY_OPTIONS
         {| maxRetries := None; baseDelay := None; maxDelay := None;
            backoffMultiplier := None;
            retryableErrors :=
              Some [NETWORK_ERROR; API_RATE_LIMIT; API_ERROR];
            onRetry := Some ApiCallLogger |})
      options in
  retryWithBackoff apiCall apiRetryOptions.

End Retry.

(** The body of [/api/analyze]'s answer, as the client reads it. *)
Record ApiErrorBody := {
  err_code : ErrorCode;
  err_message : string;
  err_suggestions : option (list string)
}.

Record AnalyzeResponse := {
  success : bool;
  data : option ExtractedData;
  error : option ApiErrorBody;
  status : Z
}.

Section ImageAnalysis.

Variable Math_pow : number -> number -> number.
Variable Math_random : nat -> number.

Definition analysisOptions (imageData imageType : string)
    (options : RetryOptions) : RetryOptions :=
  spread
    (spread DEFAULT_RETRY_OPTIONS
       {| maxRetries := Some 3; baseDelay := Some 2000%float;
          maxDelay := None; backoffMultiplier := None;
          retryableErrors := None;
          onRetry :=
            Some (ImageAnalysisLogger imageType (String_length imageData)) |})
    options.

(** The closure given to [retryApiCall]: [fetch_analyze i] is what the
    [i]-th request to [/api/analyze] yields, its parsed body or the
    message of the error that [fetch] or [json()] threw. *)
Definition analysisCall (fetch_analyze : nat -> result AnalyzeResponse string)
    (opts : RetryOptions) (i : nat) : result AnalyzeResponse exn :=
  match fetch_analyze i with
  | Throw msg => Throw (JsError msg)
  | Ok r =>
      if negb (success r) then
        match error r with
        | None => Throw (JsError "TypeError: Cannot read properties of undefined")
        | Some err =>
            Throw (AppErr
              {| code := err_code err;
                 message := err_message err;
                 userMessage := err_message err;
                 suggestions := default [] (err_suggestions err);
                 recoverable :=
                   shouldRetryError (Some (err_code err))
                     (default [] (retryableErrors opts)) |})
        end
      else Ok r
  end.

Definition retryImageAnalysis
    (fetch_analyze : nat -> result AnalyzeResponse string)
    (imageData imageType : string) (options : RetryOptions)
  : Run AnalyzeResponse :=
  let opts := analysisOptions imageData imageType options in
  retryApiCall Math_pow Math_random (analysisCall fetch_analyze opts) opts.

End ImageAnalysis.

(** *** class CircuitBreaker *)

Inductive State : Type :=
| CLOSED
| OPEN
| HALF_OPEN.

Record CircuitBreaker := {
  failures : Z;
  lastFailureTime : Z;
  state : State;
  failureThreshold : Z;
  recoveryTimeout : Z
}.

Definition new_CircuitBreaker (failureThreshold recoveryTimeout : Z)
  : CircuitBreaker :=
  {| failures := 0; lastFailureTime := 0; state := CLOSED;
     failureThreshold := failureThreshold;
     recoveryTimeout := recoveryTimeout |}.

Definition set_state (this : CircuitBreaker) (s : State) : CircuitBreaker :=
  {| failures := failures this;
     lastFailureTime := lastFailureTime this;
     state := s;
     failureThreshold := failureThreshold this;
     recoveryTimeout := recoveryTimeout this |}.

Definition onSuccess (this : CircuitBreaker) : CircuitBreaker :=
  {| failures := 0;
     lastFailureTime := lastFailureTime this;
     state := CLOSED;
     failureThreshold := failureThreshold this;
     recoveryTimeout := recoveryTimeout this |}.

(** [now] is the reading of [Date.now()]. *)
Definition onFailure (this : CircuitBreaker) (now : Z) : CircuitBreaker :=
  let failures' := failures this + 1 in
  {| failures := failures';
     lastFailureTime := now;
     state := if failureThreshold this <=? failures' then OPEN
              else state this;
     failureThreshold := failureThreshold this;
     recoveryTimeout := recoveryTimeout this |}.

(** One call of [execute]: what it returns or throws, the breaker after
    it, and, when the operation was invoked, the breaker as it was while
    the operation ran. *)
Record Exec (T : Type) := {
  returned : result T exn;
  breaker : CircuitBreaker;
  probed : option CircuitBreaker
}.
Arguments returned {T} _.
Arguments breaker {T} _.
Arguments probed {T} _.

(** [now] is [Date.now()] on entry, [later] is [Date.now()] when the
    operation has settled; [operation tt] is what the operation, once
    invoked, settles to. *)
Definition execute {T} (this : CircuitBreaker) (now : Z)
    (operation : unit -> result T exn) (later : Z) : Exec T :=
  let admitted :=
    match state this with
    | OPEN =>
        if now - lastFailureTime this >? recoveryTimeout this
        then Some (set_state this HALF_OPEN)
        else None
    | _ => Some this
    end in
  match admitted with
  | None =>
      {| returned := Throw (JsError "Circuit breaker is OPEN");
         breaker := this; probed := None |}
  | Some this' =>
      match operation tt with
      | Ok r1 =>
          {| returned := Ok r1; breaker := onSuccess this';
             probed := Some this' |}
      | Throw e =>
          {| returned := Throw e; breaker := onFailure this' later;
             probed := Some this' |}
      end
  end.

Definition apiCircuitBreaker : CircuitBreaker := new_CircuitBreaker 5 60000.

(** [resilientApiCall] on the shared breaker in state [this]: the call
    of [execute], and the run of the retry driver when the breaker let
    the call through. *)
Definition resilientApiCall {T}
    (Math_pow : number -> number -> number) (Math_random : nat -> number)
    (this : CircuitBreaker) (now : Z)
    (operation : nat -> result T exn) (options : RetryOptions) (later : Z)
  : Exec T * option (Run T) :=
  let run := retryApiCall Math_pow Math_random operation options in
  let x := execute this now (fun _ => outcome run) later in
  (x, match probed x with Some _ => Some run | None => None end).

End RetryUtils.
Import RetryUtils.

(** ** components/DataExtractor.tsx *)

Module DataExtractor.

Definition validateExtractedData (d : ExtractedData) : option AppError :=
  if match price d with
     | None => true
     | Some p =>
         PrimFloat.leb (price_value p) 0 || String.eqb (price_currency p) ""
     end
  then Some (createAppError NO_PRICE_DETECTED None None)
  else if match weight d with
          | None => true
          | Some w =>
              PrimFloat.leb (weight_value w) 0 || String.eqb (weight_unit w) ""
          end
  then Some (createAppError NO_WEIGHT_DETECTED None None)
  else if match weight d with
          | None => true
          | Some w => negb (includes ["g"; "kg"; "ml"; "l"] (weight_unit w))
          end
  then Some (createAppError NO_WEIGHT_DETECTED
               (Some "Invalid weight unit detected")
               (Some [ "Verifica que la unidad esté claramente visible";
                       "Asegúrate de que sea una unidad estándar (g, kg, ml, l)" ]))
  else if match product d with
          | None => true
          | Some pr =>
              String.eqb (product_name pr) ""
              || (String_length (trim (product_name pr)) =? 0)%nat
          end
  then Some (createAppError NO_PRODUCT_DETECTED None None)
  else None.

End DataExtractor.

(** ** The POST handler of /api/analyze *)

Module AnalyzeRoute.

Fixpoint join (sep : string) (l : list string) : string :=
  match l with
  | [] => ""
  | [x] => x
  | x :: r => x ++ sep ++ join sep r
  end.

(** The check of [POST] on the data the image processor returned; the
    three fields are present there. *)
Definition POST_check (p : PriceField) (w : WeightField) (pr : ProductField)
  : AnalyzeResponse :=
  let minConfidence := 0.3%float in
  let errors : list string :=
    ((if PrimFloat.ltb (price_confidence p) minConfidence
        || PrimFloat.leb (price_value p) 0
     then ["price information"] else [])
    ++ (if PrimFloat.ltb (weight_confidence w) minConfidence
           || PrimFloat.leb (weight_value w) 0
        then ["weight/volume information"] else [])
    ++ (if PrimFloat.ltb (product_confidence pr) minConfidence
           || String.eqb (product_name pr) ""
        then ["product name"] else []))%list in
  if (0 <? length errors)%nat then
    let errorCode :=
      if includes errors "price information" then NO_PRICE_DETECTED
      else if includes errors "weight/volume information"
           then NO_WEIGHT_DETECTED
           else NO_PRODUCT_DETECTED in
    let error :=
      createAppError errorCode
        (Some ("Could not clearly detect " ++ join ", " errors)) None in
    {| success := false;
       data := None;
       error := Some {| err_code := code error;
                        err_message := message error;
                        err_suggestions := Some (suggestions error) |};
       status := 422 |}
  else
    {| success := true;
       data := Some {| price := Some p; weight := Some w; product := Some pr |};
       error := None;
       status := 200 |}.

End AnalyzeRoute.

(** ** lib/UnitPriceCalculator.ts: display and comparison *)

Module UnitPriceDisplay.

Inductive Position : Type :=
| before
| after.

Record CurrencyConfig := {
  symbol : string;
  position : Position
}.

(** The table of [formatPrice]. *)
Definition currencyConfig : gmap string CurrencyConfig :=
  <[ "EUR" := {| symbol := "€"; position := after |} ]>
  (<[ "USD" := {| symbol := "$"; position := before |} ]>
  (<[ "GBP" := {| symbol := "£"; position := before |} ]>
  (<[ "JPY" := {| symbol := "¥"; position := before |} ]> ∅))).

Section Formatting.

Variable h : Host.

(** [number_format locale decimals x] is the text that
    [Intl.NumberFormat(locale, ...).format(x)] gives with exactly
    [decimals] fraction digits, or that [x.toFixed(decimals)] gives when
    the locale is not supported. *)
Variable number_format : string -> nat -> number -> string.

(** [v === 'after'] *)
Definition is_after (v : value (other h)) : bool :=
  match v with
  | VString s => String.eqb s "after"
  | _ => false
  end.

(** [currencyConfig[currency]] is a read of an object literal: a code
    that is not a key of the table is looked up on the prototype chain,
    and a truthy value found there is the configuration, whose
    [position] and [symbol] are then read from it. *)
Definition formatPrice (price : number) (currency locale : string)
  : result string (exception h) :=
  let formattedValue := number_format locale 2 price in
  match currencyConfig !! currency with
  | Some config =>
      Ok (match position config with
          | after => formattedValue ++ symbol config
          | before => symbol config ++ formattedValue
          end)
  | None =>
      let config := inherited h currency in
      if ToBoolean config then
        bind (get h config "position") (fun pos =>
        bind (get h config "symbol") (fun sym =>
        bind (ToString sym) (fun text =>
        Ok (if is_after pos then formattedValue ++ text
            else text ++ formattedValue))))
      else Ok (currency ++ formattedValue)
  end.

Definition unitLabels : gmap string string :=
  <[ "kg" := "kg" ]> (<[ "l" := "L" ]> ∅).

(** [unitLabels[unit] || unit] *)
Definition getUnitLabel (unit : string) : value (other h) :=
  let label := read h VString unitLabels unit in
  if ToBoolean label then label else VString unit.

Definition formatUnitPrice (r : UnitPriceResult) (locale : string)
  : result string (exception h) :=
  bind (formatPrice (pricePerUnit r) (upr_currency r) locale)
    (fun formattedPrice =>
  let unitLabel := getUnitLabel (upr_unit r) in
  bind (ToString unitLabel) (fun label =>
  Ok (formattedPrice ++ "/" ++ label))).

Definition weightLabels : gmap string string :=
  <[ "g" := "g" ]> (<[ "kg" := "kg" ]> (<[ "ml" := "ml" ]>
  (<[ "l" := "L" ]> ∅))).

Definition formatWeight (value : number) (unit locale : string)
  : result string (exception h) :=
  let decimals :=
    if String.eqb unit "g" || String.eqb unit "ml" then 0%nat else 2%nat in
  let formattedValue := number_format locale decimals value in
  let label := read h VString weightLabels unit in
  let unitLabel := if ToBoolean label then label else VString unit in
  bind (ToString unitLabel) (fun text => Ok (formattedValue ++ text)).

End Formatting.

Definition isSupportedCurrency (currency : string) : bool :=
  includes ["EUR"; "USD"; "GBP"; "JPY"] currency.

Record CurrencyInfo := {
  info_code : string;
  info_symbol : string;
  info_name : string
}.

Definition getSupportedCurrencies : list CurrencyInfo :=
  [ {| info_code := "EUR"; info_symbol := "€"; info_name := "Euro" |};
    {| info_code := "USD"; info_symbol := "$"; info_name := "US Dollar" |};
    {| info_code := "GBP"; info_symbol := "£"; info_name := "British Pound" |};
    {| info_code := "JPY"; info_symbol := "¥"; info_name := "Japanese Yen" |} ].

Inductive Error : Type :=
| Cannot_compare_units (unit1 unit2 : string)
| Cannot_compare_currencies (currency1 currency2 : string)
| Zero_price.

Definition calculatePriceDifference (price1 price2 : UnitPriceResult)
  : result number Error :=
  if negb (String.eqb (upr_unit price1) (upr_unit price2)) then
    Throw (Cannot_compare_units (upr_unit price1) (upr_unit price2))
  else if negb (String.eqb (upr_currency price1) (upr_currency price2)) then
    Throw (Cannot_compare_currencies (upr_currency price1)
             (upr_currency price2))
  else if PrimFloat.eqb (pricePerUnit price2) 0 then Throw Zero_price
  else
    let difference :=
      PrimFloat.mul
        (PrimFloat.div
           (PrimFloat.sub (pricePerUnit price1) (pricePerUnit price2))
           (pricePerUnit price2))
        100 in
    Ok (PrimFloat.div (Math_round (PrimFloat.mul difference 100)) 100).

End UnitPriceDisplay.

(** ** lib/security.ts *)

Module Security.

(** [String.prototype.includes] *)
Fixpoint contains (s needle : string) : bool :=
  String.prefix needle s
  || match s with
     | String _ r => contains r needle
     | EmptyString => false
     end.

(** The environment variables the module reads. *)
Record Env := {
  GEMINI_API_KEY : option string;
  NODE_ENV : option string
}.

Record SecurityConfig := {
  geminiApiKey : string;
  isProduction : bool;
  apiKeyValidated : bool
}.

(** The message of the [Error] thrown, or the configuration. *)
Definition validateEnvironmentSecurity (env : Env)
  : result SecurityConfig string :=
  let isProduction :=
    match NODE_ENV env with
    | Some v => String.eqb v "production"
    | None => false
    end in
  match GEMINI_API_KEY env with
  | None | Some EmptyString =>
      Throw "GEMINI_API_KEY environment variable is required"
  | Some geminiApiKey =>
      if (String_length geminiApiKey <? 10)%nat
         || String.eqb geminiApiKey "your_gemini_api_key_here"
      then Throw "GEMINI_API_KEY appears to be invalid or using placeholder value"
      else if isProduction
              && (contains geminiApiKey "test" || contains geminiApiKey "dev")
      then Throw "Development API key detected in production environment"
      else Ok {| geminiApiKey := geminiApiKey;
                 isProduction := isProduction;
                 apiKeyValidated := true |}
  end.

End Security.

(** ** lib/secureImageProcessing.ts *)

Module SecureImageProcessing.
Import Security.

Record Metadata := {
  meta_size : Z;
  meta_type : string
}.

Record ImageValidationResult := {
  isValid : bool;
  validation_error : option string;
  sanitizedData : option string;
  metadata : Metadata
}.

Definition MAX_IMAGE_SIZE : Z := 5 * 1024 * 1024.

Definition ALLOWED_MIME_TYPES : list string :=
  ["image/jpeg"; "image/png"; "image/webp"].

Definition in_range (lo hi : nat) (c : Ascii.ascii) : bool :=
  ((lo <=? Ascii.nat_of_ascii c) && (Ascii.nat_of_ascii c <=? hi))%nat.

(** The class [[A-Za-z0-9+/]]. *)
Definition is_base64_char (c : Ascii.ascii) : bool :=
  in_range 65 90 c || in_range 97 122 c || in_range 48 57 c
  || Ascii.eqb c "+"%char || Ascii.eqb c "/"%char.

Definition is_pad (c : Ascii.ascii) : bool := Ascii.eqb c "="%char.

(** ASCII white space: tab, line feed, form feed, carriage return, space. *)
Definition is_ascii_whitespace (c : Ascii.ascii) : bool :=
  let n := Ascii.nat_of_ascii c in
  ((n =? 9) || (n =? 10) || (n =? 12) || (n =? 13) || (n =? 32))%nat.

Fixpoint filter_string (f : Ascii.ascii -> bool) (s : string) : string :=
  match s with
  | String c r => if f c then String c (filter_string f r) else filter_string f r
  | EmptyString => EmptyString
  end.

Fixpoint forall_string (f : Ascii.ascii -> bool) (s : string) : bool :=
  match s with
  | String c r => f c && forall_string f r
  | EmptyString => true
  end.

Fixpoint drop_while (f : Ascii.ascii -> bool) (s : string) : string :=
  match s with
  | String c r => if f c then drop_while f r else s
  | EmptyString => EmptyString
  end.

(** [/^[A-Za-z0-9+/]*={0,2}$/.test(str)] *)
Definition base64Regex_test (str : string) : bool :=
  let rest := drop_while is_base64_char str in
  String.eqb rest "" || String.eqb rest "=" || String.eqb rest "==".

(** Whether [atob(str)] returns: the forgiving base64 decoding removes
    ASCII white space, removes one or two trailing "=" when the length is
    a multiple of 4, and then fails on a length that leaves remainder 1
    and on any character outside the alphabet. *)
Definition atob_returns (str : string) : bool :=
  let data := filter_string (fun c => negb (is_ascii_whitespace c)) str in
  let data :=
    if (String_length data mod 4 =? 0)%nat then
      let r := rev_string data "" in
      match r with
      | String a (String b r') =>
          if is_pad a then
            if is_pad b then rev_string r' "" else rev_string (String b r') ""
          else data
      | String a r' => if is_pad a then rev_string r' "" else data
      | EmptyString => data
      end
    else data in
  negb (String_length data mod 4 =? 1)%nat && forall_string is_base64_char data.

(** [in_browser] is [typeof window !== 'undefined']; outside a browser
    [Buffer.from(str, 'base64')] is used, which does not throw. *)
Definition isValidBase64 (in_browser : bool) (str : string) : bool :=
  if negb (base64Regex_test str) then false
  else if in_browser then atob_returns str
  else true.

Definition getBase64Size (base64String : string) : Z :=
  let withoutPadding := filter_string (fun c => negb (is_pad c)) base64String in
  (Z.of_nat (String_length withoutPadding) * 3) / 4.

Definition sanitizeBase64 (base64Data : string) : string :=
  filter_string (fun c => is_base64_char c || is_pad c) base64Data.

Fixpoint until_comma (s : string) : string :=
  match s with
  | String c r =>
      if Ascii.eqb c ","%char then EmptyString else String c (until_comma r)
  | EmptyString => EmptyString
  end.

Fixpoint after_comma (s : string) : option string :=
  match s with
  | String c r => if Ascii.eqb c ","%char then Some r else after_comma r
  | EmptyString => None
  end.

(** [imageData.includes(',') ? imageData.split(',')[1] : imageData] *)
Definition base64_part (imageData : string) : string :=
  match after_comma imageData with
  | Some r => until_comma r
  | None => imageData
  end.

Definition join (sep : string) (l : list string) : string :=
  AnalyzeRoute.join sep l.

(** The integer a number holds, and its decimal text. *)
Definition integer_text (x : number) : string :=
  match Prim2SF x with
  | S754_finite s m e =>
      let a := if 0 <=? e then Z.pos m * 2 ^ e else Z.pos m / 2 ^ (- e) in
      pretty (if s then - a else a)
  | _ => "0"
  end.

(** No statement of the [try] block throws, so its [catch] is left out. *)
Definition validateAndSanitizeImage (in_browser : bool)
    (imageData mimeType : string) : ImageValidationResult :=
  if negb (includes ALLOWED_MIME_TYPES mimeType) then
    {| isValid := false;
       validation_error :=
         Some ("Unsupported image type: " ++ mimeType ++ ". Allowed types: "
               ++ join ", " ALLOWED_MIME_TYPES);
       sanitizedData := None;
       metadata := {| meta_size := 0; meta_type := mimeType |} |}
  else
    let base64Data := base64_part imageData in
    if negb (isValidBase64 in_browser base64Data) then
      {| isValid := false;
         validation_error := Some "Invalid base64 image data format";
         sanitizedData := None;
         metadata := {| meta_size := 0; meta_type := mimeType |} |}
    else
      let imageSize := getBase64Size base64Data in
      if imageSize >? MAX_IMAGE_SIZE then
        {| isValid := false;
           validation_error :=
             Some ("Image too large: "
                   ++ integer_text
                        (Math_round
                           (PrimFloat.div
                              (PrimFloat.div (of_Z imageSize) 1024) 1024))
                   ++ "MB. Maximum allowed: "
                   ++ integer_text
                        (PrimFloat.div
                           (PrimFloat.div (of_Z MAX_IMAGE_SIZE) 1024) 1024)
                   ++ "MB");
           sanitizedData := None;
           metadata := {| meta_size := imageSize; meta_type := mimeType |} |}
      else
        {| isValid := true;
           validation_error := None;
           sanitizedData := Some (sanitizeBase64 base64Data);
           metadata := {| meta_size := imageSize; meta_type := mimeType |} |}.

(** What a processor or the route throws: an [Error] with its message,
    or an [AppError] object, which is not an instance of [Error]. *)
Inductive Thrown : Type :=
| ThrownError (msg : string)
| ThrownAppError (e : AppError).

(** A run of [processImage]: what it returns or throws, the lines it
    logs, and what the processor was given, when it was invoked. *)
Record Processing (A : Type) := {
  settled_to : result A Thrown;
  logged : list string;
  processor_input : option (string * string)
}.
Arguments settled_to {A} _.
Arguments logged {A} _.
Arguments processor_input {A} _.

Definition processImage {A} (in_browser : bool) (imageData mimeType : string)
    (processor : string -> string -> result A Thrown) : Processing A :=
  let validation := validateAndSanitizeImage in_browser imageData mimeType in
  if negb (isValid validation) then
    {| settled_to :=
         Throw (ThrownError (default "" (validation_error validation)));
       logged := [];
       processor_input := None |}
  else
    let stored := default "" (sanitizedData validation) in
    let cleanup :=
      match stored with
      | EmptyString => []
      | _ => ["Image data cleaned up"]
      end in
    match processor stored mimeType with
    | Ok r1 =>
        {| settled_to := Ok r1;
           logged := ["Image processing started"; "Image processing completed"]
                       ++ cleanup;
           processor_input := Some (stored, mimeType) |}
    | Throw t =>
        {| settled_to := Throw t;
           logged := ["Image processing started"] ++ cleanup;
           processor_input := Some (stored, mimeType) |}
    end.

End SecureImageProcessing.

(** ** The POST handler of /api/analyze, as a whole *)

Module AnalyzePost.
Import Security SecureImageProcessing.

Record AnalyzeRequest := {
  image : option string;
  imageType : option string
}.

(** What the call of the model and the parsing of its text come to: the
    call throws an [Error], the text is not JSON, or it is an object,
    some of whose three fields may be missing. *)
Inductive AiReply : Type :=
| AiThrows (msg : string)
| AiNotJson
| AiJson (d : ExtractedData).

(** The callback [POST] gives to [processImage]. *)
Definition analyze (ai : string -> string -> AiReply)
    (sanitizedImageData mimeType : string)
  : result (PriceField * WeightField * ProductField) Thrown :=
  if negb (includes ["image/jpeg"; "image/png"; "image/webp"] mimeType) then
    Throw (ThrownAppError
             (createAppError INVALID_IMAGE_FORMAT
                (Some "Unsupported image format") None))
  else
    match ai sanitizedImageData mimeType with
    | AiThrows msg => Throw (ThrownError msg)
    | AiNotJson =>
        Throw (ThrownAppError
                 (createAppError API_ERROR
                    (Some "Failed to parse AI response") None))
    | AiJson d =>
        match price d, weight d, product d with
        | Some p, Some w, Some pr => Ok (p, w, pr)
        | _, _, _ =>
            Throw (ThrownAppError
                     (createAppError API_ERROR
                        (Some "Invalid response structure from AI") None))
        end
    end.

Definition error_response (e : AppError) (st : Z) : AnalyzeResponse :=
  {| success := false; data := None;
     error := Some {| err_code := code e; err_message := message e;
                      err_suggestions := Some (suggestions e) |};
     status := st |}.

(** The [catch] block of [POST]. *)
Definition handle_thrown (t : Thrown) : AnalyzeResponse :=
  match t with
  | ThrownError msg =>
      if contains msg "API key" then
        error_response
          (createAppError API_ERROR (Some "API authentication failed") None) 401
      else if contains msg "quota" || contains msg "rate" then
        error_response
          (createAppError API_RATE_LIMIT (Some "API rate limit exceeded") None)
          429
      else
        error_response
          (createAppError NETWORK_ERROR (Some "Network or server error") None)
          500
  | ThrownAppError _ =>
      error_response
        (createAppError NETWORK_ERROR (Some "Network or server error") None)
        500
  end.

(** One request: the answer, the configuration the module keeps for the
    next request, and what the model was asked, if it was. *)
Record Handled := {
  response : AnalyzeResponse;
  securityConfig : option SecurityConfig;
  ai_request : option (string * string)
}.

(** [cached] is the module's [securityConfig]; [body] is what
    [request.json()] settles to. The route runs outside a browser. *)
Definition POST (cached : option SecurityConfig) (env : Env)
    (body : result AnalyzeRequest string)
    (ai : string -> string -> AiReply) : Handled :=
  let initialized :=
    match cached with
    | Some c => Ok c
    | None => validateEnvironmentSecurity env
    end in
  match initialized with
  | Throw msg =>
      {| response := handle_thrown (ThrownError msg);
         securityConfig := cached; ai_request := None |}
  | Ok c =>
      match body with
      | Throw msg =>
          {| response := handle_thrown (ThrownError msg);
             securityConfig := Some c; ai_request := None |}
      | Ok b =>
          match image b, imageType b with
          | Some (String i0 i), Some (String t0 t) =>
              let run :=
                processImage false (String i0 i) (String t0 t) (analyze ai) in
              {| response :=
                   match settled_to run with
                   | Ok (p, w, pr) => AnalyzeRoute.POST_check p w pr
                   | Throw thrown => handle_thrown thrown
                   end;
                 securityConfig := Some c;
                 ai_request :=
                   match processor_input run with
                   | Some (d, m) =>
                       if includes ["image/jpeg"; "image/png"; "image/webp"] m
                       then Some (d, m) else None
                   | None => None
                   end |}
          | _, _ =>
              {| response :=
                   error_response
                     (createAppError INVALID_IMAGE_FORMAT
                        (Some "Missing image data or type") None) 400;
                 securityConfig := Some c; ai_request := None |}
          end
      end
  end.

End AnalyzePost.

(** ** components/DataExtractor.tsx: the [extractData] callback of
    [useDataExtractor] *)

Module UseDataExtractor.
Import ErrorHandling RetryUtils DataExtractor.

(** The two properties of the [File] that are read. *)
Record File := {
  file_size : Z;
  file_type : string
}.

(** The state setters and the three callbacks of the props, in the order
    in which a run calls them. The callbacks are taken to return
    normally. *)
Inductive Effect : Type :=
| SetIsExtracting (b : bool)
| SetError (e : option exn)
| OnExtractionStart
| OnExtractionError (e : exn)
| OnExtractionComplete (d : ExtractedData).

Record Extraction := {
  effects : list Effect;
  requests : nat
}.

(** [reader] is what the [FileReader] does with the file: it loads a
    data URL or fires [onerror]. *)
Definition fileToBase64 (reader : result string unit) : result string exn :=
  match reader with
  | Ok dataUrl => Ok dataUrl
  | Throw _ => Throw (JsError "Failed to read file")
  end.

Section ExtractData.

Variable Math_pow : number -> number -> number.
Variable Math_random : nat -> number.

Definition entered : list Effect :=
  [SetIsExtracting true; SetError None; OnExtractionStart].

(** [setError(e); onExtractionError(e); return] (or the [catch] block),
    then the [finally] block. *)
Definition failed (e : exn) (n : nat) : Extraction :=
  {| effects :=
       (entered ++ [SetError (Some e); OnExtractionError e;
                    SetIsExtracting false])%list;
     requests := n |}.

Definition extractData (reader : result string unit)
    (fetch_analyze : nat -> result AnalyzeResponse string)
    (file : File) : Extraction :=
  let maxSize := 10 * 1024 * 1024 in
  if file_size file >? maxSize then
    failed (AppErr (createAppError IMAGE_TOO_LARGE None None)) 0
  else if negb (includes ["image/jpeg"; "image/png"; "image/webp"]
                  (file_type file)) then
    failed (AppErr (createAppError INVALID_IMAGE_FORMAT None None)) 0
  else
    match fileToBase64 reader with
    | Throw e => failed e 0
    | Ok base64 =>
        let run :=
          retryImageAnalysis Math_pow Math_random fetch_analyze base64
            (file_type file)
            {| maxRetries := None; baseDelay := None; maxDelay := None;
               backoffMultiplier := None; retryableErrors := None;
               onRetry := Some (CallerObserver "extractData") |} in
        match outcome run with
        | Throw e => failed e (calls run)
        | Ok r =>
            match data r with
            | None =>
                failed
                  (JsError "TypeError: Cannot read properties of undefined")
                  (calls run)
            | Some d =>
                match validateExtractedData d with
                | Some validationError =>
                    failed (AppErr validationError) (calls run)
                | None =>
                    {| effects :=
                         (entered ++ [OnExtractionComplete d;
                                      SetIsExtracting false])%list;
                       requests := calls run |}
                end
            end
        end
    end.

End ExtractData.

End UseDataExtractor.

(** ** lib/navigationState.ts *)

Module Navigation.

Inductive ViewState : Type :=
| upload
| processing
| result_view
| error_view.

Inductive StepStatus : Type :=
| pending
| step_processing
| completed
| step_failed.

Record ProcessingStep := {
  name : string;
  status : StepStatus;
  duration : option Z;
  step_error : option string
}.

Record ProcessingPipeline := {
  steps : list ProcessingStep;
  currentStep : Z;
  totalSteps : Z;
  startTime : Z
}.

Record UploadState := {
  isDragOver : bool;
  isUploading : bool;
  upload_error : option string
}.

Record AppState := {
  currentView : ViewState;
  uploadState : UploadState;
  processingState : ProcessingPipeline;
  result : option UnitPriceResult;
  error : option AppError;
  history : list UnitPriceResult
}.

(** The actions with the payload each case of the reducer reads; any
    other [type] is [Other]. *)
Inductive Action : Type :=
| START_PROCESSING
| UPDATE_PROCESSING_STEP (stepIndex : Z) (status : StepStatus)
    (error : option string)
| COMPLETE_PROCESSING (result : UnitPriceResult)
| SHOW_ERROR (error : AppError)
| RESET
| RETRY
| SET_DRAG_STATE (isDragOver : bool)
| SET_UPLOAD_ERROR (error : option string)
| Other (type : string).

Definition empty_pipeline : ProcessingPipeline :=
  {| steps := []; currentStep := 0; totalSteps := 0; startTime := 0 |}.

Definition createInitialState : AppState :=
  {| currentView := upload;
     uploadState :=
       {| isDragOver := false; isUploading := false; upload_error := None |};
     processingState := empty_pipeline;
     result := None;
     error := None;
     history := [] |}.

Definition new_step (n : string) (s : StepStatus) : ProcessingStep :=
  {| name := n; status := s; duration := None; step_error := None |}.

(** [now] is the reading of [Date.now()]. *)
Definition createProcessingPipeline (now : Z) : ProcessingPipeline :=
  {| steps :=
       [ new_step "image_validation" completed;
         new_step "ai_extraction" step_processing;
         new_step "data_validation" pending;
         new_step "unit_normalization" pending;
         new_step "price_calculation" pending ];
     currentStep := 1;
     totalSteps := 5;
     startTime := now |}.

Definition is_completed (s : StepStatus) : bool :=
  match s with
  | completed => true
  | _ => false
  end.

Definition navigationReducer (now : Z) (state : AppState) (action : Action)
  : AppState :=
  match action with
  | START_PROCESSING =>
      {| currentView := processing;
         uploadState := uploadState state;
         processingState := createProcessingPipeline now;
         result := None;
         error := None;
         history := history state |}
  | UPDATE_PROCESSING_STEP stepIndex st err =>
      let p := processingState state in
      {| currentView := currentView state;
         uploadState := uploadState state;
         processingState :=
           {| steps :=
                imap (fun index step =>
                        if Z.of_nat index =? stepIndex then
                          {| name := name step;
                             status := st;
                             duration :=
                               if is_completed st
                               then Some (now - startTime p)
                               else None;
                             step_error := err |}
                        else step)
                     (steps p);
              currentStep :=
                if is_completed st then stepIndex + 1 else stepIndex;
              totalSteps := totalSteps p;
              startTime := startTime p |};
         result := result state;
         error := error state;
         history := history state |}
  | COMPLETE_PROCESSING r =>
      {| currentView := result_view;
         uploadState := uploadState state;
         processingState := processingState state;
         result := Some r;
         error := error state;
         history := r :: take 9 (history state) |}
  | SHOW_ERROR e =>
      {| currentView := error_view;
         uploadState := uploadState state;
         processingState := processingState state;
         result := result state;
         error := Some e;
         history := history state |}
  | RESET =>
      {| currentView := upload;
         uploadState := uploadState state;
         processingState := empty_pipeline;
         result := None;
         error := None;
         history := history state |}
  | RETRY =>
      {| currentView := upload;
         uploadState := uploadState state;
         processingState := processingState state;
         result := result state;
         error := None;
         history := history state |}
  | SET_DRAG_STATE b =>
      {| currentView := currentView state;
         uploadState :=
           {| isDragOver := b;
              isUploading := isUploading (uploadState state);
              upload_error := upload_error (uploadState state) |};
         processingState := processingState state;
         result := result state;
         error := error state;
         history := history state |}
  | SET_UPLOAD_ERROR e =>
      {| currentView := currentView state;
         uploadState :=
           {| isDragOver := isDragOver (uploadState state);
              isUploading := isUploading (uploadState state);
              upload_error := e |};
         processingState := processingState state;
         result := result state;
         error := error state;
         history := history state |}
  | Other _ => state
  end.

End Navigation.

(** * Properties *)

(** ** Numbers *)

Section NumberFacts.

(** A number above zero is not at most zero (and is not NaN). *)
Lemma positive_not_leb_zero (x : number) :
  PrimFloat.ltb 0 x = true -> PrimFloat.leb x 0 = false.
Proof.
  rewrite ltb_spec, leb_spec.
  replace (Prim2SF 0) with (S754_zero false) by reflexivity.
  destruct (Prim2SF x) as [s| s| |s m e]; try destruct s;
    cbn; congruence.
Qed.

End NumberFacts.

(** ** A host for the examples *)

Module SampleHost.

(** The built-ins the examples meet: the function [Object], the object
    [Object.prototype] and its methods. *)
Inductive builtin : Type :=
| Object_constructor
| Object_prototype
| method (name : string).

Definition methods : list string :=
  [ "hasOwnProperty"; "isPrototypeOf"; "propertyIsEnumerable";
    "toLocaleString"; "toString"; "valueOf" ].

Definition builtin_inherited (k : string) : value builtin :=
  if String.eqb k "constructor" then VOther Object_constructor
  else if String.eqb k "__proto__" then VOther Object_prototype
  else if includes methods k then VOther (method k)
  else VUndefined.

(** [Object.length] is 1 and [Object.name] is "Object"; reading
    [caller] or [arguments] of a built-in function throws a TypeError. *)
Definition builtin_get (v : value builtin) (k : string)
  : result (value builtin) string :=
  match v with
  | VOther Object_constructor =>
      if String.eqb k "length" then Ok (VNumber 1)
      else if String.eqb k "name" then Ok (VString "Object")
      else if String.eqb k "caller" || String.eqb k "arguments"
      then Throw "TypeError"
      else Ok VUndefined
  | VOther Object_prototype => Ok (builtin_inherited k)
  | VUndefined => Throw "TypeError"
  | _ => Ok VUndefined
  end.

Definition host : Host :=
  {| other := builtin;
     exception := string;
     inherited := builtin_inherited;
     get := builtin_get;
     other_truthy := fun _ => true;
     other_toString := fun _ => Ok "[object]";
     Number_toString := fun _ => "0" |}.

End SampleHost.

(** ** WeightNormalizer *)

Module WeightNormalizerFacts.
Import WeightNormalizer.

Definition normalized (w : WeightField) (v : number) (u : string)
  : NormalizedWeight :=
  {| nw_value := v; nw_unit := u;
     originalValue := weight_value w; originalUnit := weight_unit w |}.

Lemma normalize_valid (w : WeightField) :
  PrimFloat.ltb 0 (weight_value w) = true ->
  forall r, normalize w = Ok r ->
    (nw_unit r = "kg" \/ nw_unit r = "l")
    /\ originalValue r = weight_value w
    /\ originalUnit r = weight_unit w.
Proof.
  intros Hpos r. unfold normalize.
  rewrite (positive_not_leb_zero _ Hpos).
  destruct (negb (isValidUnit (weight_unit w))); [discriminate|].
  repeat match goal with
         | |- context [String.eqb ?a ?b] => destruct (String.eqb a b)
         end;
    intros [= <-]; cbn; auto.
Qed.

(** C8. For every weight field with a value above zero, [normalize]
    keeps value and unit when the unit is kg or l, divides the value by
    1000 and yields kg for g, divides by 1000 and yields l for ml; the
    result records the input's value and unit as originalValue and
    originalUnit, and its unit is kg or l. *)
Theorem normalize_spec (w : WeightField) :
  PrimFloat.ltb 0 (weight_value w) = true ->
  (weight_unit w = "kg" \/ weight_unit w = "l" ->
     normalize w = Ok (normalized w (weight_value w) (weight_unit w)))
  /\ (weight_unit w = "g" ->
     normalize w
     = Ok (normalized w (PrimFloat.div (weight_value w) 1000) "kg"))
  /\ (weight_unit w = "ml" ->
     normalize w
     = Ok (normalized w (PrimFloat.div (weight_value w) 1000) "l"))
  /\ (forall r, normalize w = Ok r ->
        (nw_unit r = "kg" \/ nw_unit r = "l")
        /\ originalValue r = weight_value w
        /\ originalUnit r = weight_unit w).
Proof.
  intros Hpos.
  pose proof (positive_not_leb_zero _ Hpos) as Hle.
  repeat split.
  - intros [Hu | Hu]; unfold normalize, normalized;
      rewrite Hle, Hu; reflexivity.
  - intros Hu. unfold normalize, normalized. rewrite Hle, Hu. reflexivity.
  - intros Hu. unfold normalize, normalized. rewrite Hle, Hu. reflexivity.
  - apply (normalize_valid w Hpos r H).
  - apply (normalize_valid w Hpos r H).
  - apply (normalize_valid w Hpos r H).
Qed.

Lemma normalize_spec_witness :
  normalize {| weight_value := 500; weight_unit := "g";
               weight_confidence := 0.9 |}
  = Ok {| nw_value := 0.5; nw_unit := "kg";
          originalValue := 500; originalUnit := "g" |}.
Proof.
  exact (proj1 (proj2 (normalize_spec
           {| weight_value := 500; weight_unit := "g";
              weight_confidence := 0.9 |} eq_refl)) eq_refl).
Defined.

(** The pairs of units of one domain: both weights or both volumes. *)
Definition within_domain (fromUnit toUnit : string) : bool :=
  (includes ["g"; "kg"] fromUnit && includes ["g"; "kg"] toUnit)
  || (includes ["ml"; "l"] fromUnit && includes ["ml"; "l"] toUnit).

Lemma conversions_lookup (u : string) :
  conversions !! u
  = if String.eqb u "g" then
      Some (<[ "kg" := PrimFloat.div 1 1000 ]> (<[ "g" := 1%float ]> ∅))
    else if String.eqb u "kg" then
      Some (<[ "kg" := 1%float ]> (<[ "g" := 1000%float ]> ∅))
    else if String.eqb u "ml" then
      Some (<[ "l" := PrimFloat.div 1 1000 ]> (<[ "ml" := 1%float ]> ∅))
    else if String.eqb u "l" then
      Some (<[ "l" := 1%float ]> (<[ "ml" := 1000%float ]> ∅))
    else None.
Proof.
  unfold conversions.
  repeat match goal with
         | |- context [String.eqb u ?k] =>
             destruct (String.eqb_spec u k) as [-> | ?];
             [ apply lookup_insert_eq
             | rewrite lookup_insert_ne by congruence ]
         end.
  apply lookup_empty.
Qed.

Lemma row_lookup (a b t : string) (x y : number) :
  (<[ a := x ]> (<[ b := y ]> (∅ : gmap string number))) !! t
  = if String.eqb t a then Some x
    else if String.eqb t b then Some y else None.
Proof.
  destruct (String.eqb_spec t a) as [-> | ?].
  - apply lookup_insert_eq.
  - rewrite lookup_insert_ne by congruence.
    destruct (String.eqb_spec t b) as [-> | ?].
    + apply lookup_insert_eq.
    + rewrite lookup_insert_ne by congruence. apply lookup_empty.
Qed.

(** For the names that the prototype chain does not answer with a truthy
    value, the method returns a factor exactly for the pairs within one
    domain and throws "Cannot convert" for every other pair. *)
Lemma getConversionFactor_own (h : Host) (fromUnit toUnit : string) :
  ToBoolean (inherited h fromUnit) = false ->
  ToBoolean (inherited h toUnit) = false ->
  if within_domain fromUnit toUnit
  then exists f, getConversionFactor h fromUnit toUnit = Ok (VNumber f)
  else getConversionFactor h fromUnit toUnit
       = Throw (inl (Cannot_convert fromUnit toUnit)).
Proof.
  intros Hf Ht.
  unfold getConversionFactor, within_domain, includes, read.
  rewrite conversions_lookup. cbn [existsb].
  repeat match goal with
         | |- context [String.eqb fromUnit ?k] =>
             destruct (String.eqb_spec fromUnit k) as [-> | ?]
         end;
    try rewrite row_lookup;
    repeat match goal with
           | |- context [String.eqb toUnit ?k] =>
               destruct (String.eqb_spec toUnit k) as [-> | ?]
           end;
    cbn; rewrite ?Hf, ?Ht; cbn; eauto.
Qed.

(** C9. [getConversionFactor] gives 0.001 for g to kg and ml to l, 1000
    for kg to g and l to ml, 1 for a unit of the table to itself, and
    throws "Cannot convert" for g to l. But the table is an object
    literal, read with the names given: in a host where object literals
    inherit [constructor], a function whose [length] is 1, and no
    property l (every ECMAScript host), the pair constructor, length has
    no table entry
    and is answered 1, and the pair g, constructor is answered with that
    function, where the design asks for a rejection. The method rejects
    every pair outside one domain only among the names that the
    prototype chain does not answer with a truthy value. *)
Theorem getConversionFactor_answers_inherited_names (h : Host)
    (f : other h) :
  inherited h "constructor" = VOther f ->
  other_truthy h f = true ->
  get h (VOther f) "length" = Ok (VNumber 1) ->
  inherited h "l" = VUndefined ->
  within_domain "constructor" "length" = false
  /\ getConversionFactor h "constructor" "length" = Ok (VNumber 1)
  /\ within_domain "g" "constructor" = false
  /\ getConversionFactor h "g" "constructor" = Ok (VOther f)
  /\ getConversionFactor h "g" "kg" = Ok (VNumber 0.001)
  /\ getConversionFactor h "ml" "l" = Ok (VNumber 0.001)
  /\ getConversionFactor h "kg" "g" = Ok (VNumber 1000)
  /\ getConversionFactor h "l" "ml" = Ok (VNumber 1000)
  /\ (forall u, isValidUnit u = true ->
        getConversionFactor h u u = Ok (VNumber 1))
  /\ getConversionFactor h "g" "l" = Throw (inl (Cannot_convert "g" "l"))
  /\ (forall fromUnit toUnit,
        ToBoolean (inherited h fromUnit) = false ->
        ToBoolean (inherited h toUnit) = false ->
        ((exists v, getConversionFactor h fromUnit toUnit = Ok v)
         <-> within_domain fromUnit toUnit = true)
        /\ (within_domain fromUnit toUnit = false ->
            getConversionFactor h fromUnit toUnit
            = Throw (inl (Cannot_convert fromUnit toUnit)))).
Proof.
  intros Hc Hf Hl Hnone.
  split; [reflexivity|].
  split.
  { unfold getConversionFactor. rewrite conversions_lookup. cbn.
    rewrite Hc. cbn. rewrite Hf. cbn. rewrite Hl. reflexivity. }
  split; [reflexivity|].
  split.
  { unfold getConversionFactor, read. rewrite conversions_lookup. cbn.
    rewrite row_lookup. cbn. rewrite Hc. cbn. rewrite Hf. reflexivity. }
  do 4 (split; [reflexivity|]).
  split.
  { intros u. unfold isValidUnit, includes. cbn [existsb].
    repeat match goal with
           | |- context [String.eqb u ?k] =>
               destruct (String.eqb_spec u k) as [-> | ?];
               [ intros _; reflexivity | ]
           end.
    cbn. discriminate. }
  split.
  { unfold getConversionFactor, read. rewrite conversions_lookup. cbn.
    rewrite row_lookup. cbn. rewrite Hnone. reflexivity. }
  intros fromUnit toUnit Hfrom Hto.
  pose proof (getConversionFactor_own h fromUnit toUnit Hfrom Hto) as Hall.
  destruct (within_domain fromUnit toUnit).
  - split; [|discriminate]. destruct Hall as [x Hx]. split; eauto.
  - split; [|intros _; exact Hall].
    split; [intros [v Hv]; congruence | discriminate].
Qed.

Lemma getConversionFactor_answers_inherited_names_witness :
  getConversionFactor SampleHost.host "constructor" "length"
  = Ok (VNumber 1).
Proof.
  exact (proj1 (proj2 (getConversionFactor_answers_inherited_names
                         SampleHost.host SampleHost.Object_constructor
                         eq_refl eq_refl eq_refl eq_refl))).
Defined.

End WeightNormalizerFacts.

(** ** UnitPriceCalculator *)

Module UnitPriceCalculatorFacts.
Import UnitPriceCalculator.

(** The double a decimal quantity is read as: the correctly rounded
    quotient of its numerator and denominator. *)
Definition number_of_decimal (q : Q) : number :=
  PrimFloat.div (of_Z (Qnum q)) (of_Z (Z.pos (Qden q))).

(** The design document's rounding: round-half-up to two decimals of an
    exact decimal quantity. *)
Definition round_half_up_2 (q : Q) : Q :=
  Qmake (Qfloor (Qplus (Qmult q (inject_Z 100)) (Qmake 1 2))) 100.

(** The design document's unit price for a decimal price and a decimal
    weight: their exact quotient, rounded half up to two decimals. *)
Definition claimed_pricePerUnit (price_dec weight_dec : Q) : number :=
  number_of_decimal (round_half_up_2 (Qdiv price_dec weight_dec)).

(** What [calculate] computes: the quotient, the product by 100 and the
    quotient by 100 are each rounded to a double. *)
Definition computed_pricePerUnit (price_val weight_val : number) : number :=
  PrimFloat.div
    (Math_round (PrimFloat.mul (PrimFloat.div price_val weight_val) 100))
    100.

(** A price of 2.01 for 2 kg: the quotient is the double written 1.005,
    which lies below the decimal 1.005; its product by 100 is the double
    below 100.5, and [calculate] yields 1 where rounding the decimal
    quotient half up yields 1.01. *)
Lemma calculate_not_decimal_half_up :
  let p := {| price_value := 2.01; price_currency := "EUR";
              price_confidence := 0.9 |} in
  let n := {| nw_value := 2; nw_unit := "kg";
              originalValue := 2; originalUnit := "kg" |} in
  PrimFloat.ltb 0 (price_value p) = true
  /\ PrimFloat.ltb 0 (nw_value n) = true
  /\ price_value p = number_of_decimal (Qmake 201 100)
  /\ nw_value n = number_of_decimal (Qmake 2 1)
  /\ PrimFloat.div (price_value p) (nw_value n) = 1.005%float
  /\ (exists q, to_Q (PrimFloat.div (price_value p) (nw_value n)) = Some q
                /\ Qlt q (Qmake 1005 1000))
  /\ claimed_pricePerUnit (Qmake 201 100) (Qmake 2 1) = 1.01%float
  /\ (exists r, calculate p n = Ok r /\ pricePerUnit r = 1%float)
  /\ ~ (exists r, calculate p n = Ok r
                  /\ PrimFloat.eqb (pricePerUnit r)
                       (claimed_pricePerUnit (Qmake 201 100) (Qmake 2 1))
                     = true).
Proof.
  cbv zeta. repeat split; try reflexivity.
  - eexists; split; reflexivity.
  - eexists; split; reflexivity.
  - intros [r [Hr He]]. vm_compute in Hr. injection Hr as <-.
    vm_compute in He. discriminate He.
Qed.

(** C7 (amended). For a price and a normalized weight with values above
    zero, [calculate] returns a result whose pricePerUnit is
    [Math.round(price / weight * 100) / 100] evaluated on doubles, and
    which carries the weight's unit, the price's currency, the price's
    value as originalPrice and the weight as originalWeight; for a price
    of 3.33 and a weight of 1.5 the pricePerUnit is 2.22. *)
Theorem calculate_spec (p : PriceField) (n : NormalizedWeight) :
  PrimFloat.ltb 0 (price_value p) = true ->
  PrimFloat.ltb 0 (nw_value n) = true ->
  calculate p n
  = Ok {| pricePerUnit := computed_pricePerUnit (price_value p) (nw_value n);
          upr_unit := nw_unit n;
          upr_currency := price_currency p;
          originalPrice := price_value p;
          originalWeight := n |}
  /\ (price_value p = 3.33%float -> nw_value n = 1.5%float ->
      computed_pricePerUnit (price_value p) (nw_value n) = 2.22%float).
Proof.
  intros Hp Hn. split.
  - unfold calculate.
    rewrite (positive_not_leb_zero _ Hp), (positive_not_leb_zero _ Hn).
    reflexivity.
  - intros -> ->. reflexivity.
Qed.

Lemma calculate_spec_witness :
  exists r,
    calculate {| price_value := 3.33; price_currency := "EUR";
                 price_confidence := 0.9 |}
              {| nw_value := 1.5; nw_unit := "l";
                 originalValue := 1500; originalUnit := "ml" |} = Ok r
    /\ pricePerUnit r = 2.22%float.
Proof.
  destruct (calculate_spec
              {| price_value := 3.33; price_currency := "EUR";
                 price_confidence := 0.9 |}
              {| nw_value := 1.5; nw_unit := "l";
                 originalValue := 1500; originalUnit := "ml" |}
              eq_refl eq_refl) as [H1 H2].
  eexists. split; [exact H1 | exact (H2 eq_refl eq_refl)].
Defined.

End UnitPriceCalculatorFacts.

(** ** Retry driver *)

(** Stand-ins for [Math.pow] and [Math.random], to run the driver on
    concrete inputs. *)
Module Samples.

Definition nat_of_number (x : number) : nat :=
  match Prim2SF x with
  | S754_finite false m e =>
      Z.to_nat (if 0 <=? e then Z.pos m * 2 ^ e else Z.pos m / 2 ^ (- e))
  | _ => O
  end.

Fixpoint pow_nat (b : number) (n : nat) : number :=
  match n with
  | O => 1%float
  | S k => PrimFloat.mul b (pow_nat b k)
  end.

(** Powers with a natural exponent, by repeated multiplication. *)
Definition pow (b e : number) : number := pow_nat b (nat_of_number e).

Definition random (i : nat) : number := 0.5%float.

Definition network_error : AppError := createAppError NETWORK_ERROR None None.
Definition format_error : AppError :=
  createAppError INVALID_IMAGE_FORMAT None None.
Definition api_error : AppError := createAppError API_ERROR None None.

(** An operation that fails twice with a network error, then succeeds. *)
Definition fails_twice (i : nat) : result string exn :=
  if (i <? 2)%nat then Throw (AppErr network_error) else Ok "success".

Definition always_fails (e : AppError) (i : nat) : result string exn :=
  Throw (AppErr e).

Definition network_only : RetryOptions :=
  {| maxRetries := Some 3; baseDelay := Some 10%float; maxDelay := None;
     backoffMultiplier := None;
     retryableErrors := Some [NETWORK_ERROR];
     onRetry := Some (CallerObserver "onRetry") |}.

End Samples.

Module RetryFacts.

(** The observer invocations of a run, in order. *)
Fixpoint notifications (evs : list Event) : list (Observer * Z * exn) :=
  match evs with
  | EvOnRetry f a e :: r => (f, a, e) :: notifications r
  | _ :: r => notifications r
  | [] => []
  end.

Fixpoint invocations (evs : list Event) : nat :=
  match evs with
  | EvInvoke :: r => S (invocations r)
  | _ :: r => invocations r
  | [] => O
  end.

Section Attempts.

Variable Math_pow : number -> number -> number.
Variable Math_random : nat -> number.
Context {T : Type}.
Variable operation : nat -> result T exn.
Variable opts : RetryOptions.

Abbreviation run := (attempts Math_pow Math_random operation opts).

Lemma invocations_calls n a i last :
  invocations (events (run n a i last)) = calls (run n a i last).
Proof.
  revert a i last. induction n as [|n IH]; intros a i last; cbn.
  - reflexivity.
  - destruct (operation i) as [v|e]; [reflexivity|].
    destruct (negb _); [reflexivity|].
    destruct (match maxRetries opts with Some m => a =? m | None => false end);
      [reflexivity|].
    cbn. destruct (onRetry opts); cbn; rewrite IH; reflexivity.
Qed.

(** A failure whose code is not in the list ends the run at once. *)
Lemma attempts_not_retryable n a i last e :
  operation i = Throw e ->
  shouldRetryError (exn_code e) (default [] (retryableErrors opts)) = false ->
  run (S n) a i last
  = {| outcome := Throw e; calls := 1; events := [EvInvoke] |}.
Proof. intros Hop Hno. cbn. rewrite Hop, Hno. reflexivity. Qed.

Variable m : Z.
Variable f : Observer.
Hypothesis Hm : maxRetries opts = Some m.
Hypothesis Hf : onRetry opts = Some f.



End Attempts.

Definition effective (options : RetryOptions) : RetryOptions :=
  spread DEFAULT_RETRY_OPTIONS options.










(** The API retry policy retries API_ERROR: run on an operation that
    always fails with it, [retryApiCall] invokes the operation three
    times, not once. *)
Lemma api_error_not_surfaced_at_once :
  let operation : nat -> result unit exn :=
    fun _ => Throw (AppErr Samples.api_error) in
  let r := retryApiCall Samples.pow Samples.random operation no_options in
  code Samples.api_error = API_ERROR
  /\ calls r = 3%nat
  /\ calls r <> 1%nat
  /\ notifications (events r)
     = [ (ApiCallLogger, 1, AppErr Samples.api_error);
         (ApiCallLogger, 2, AppErr Samples.api_error) ].
Proof. cbv zeta. repeat split. vm_compute. discriminate. Qed.

(** C1 (amended). API_ERROR is one of the codes of the API retry policy
    that trigger another attempt: an operation that fails with an
    API_ERROR at every invocation is invoked maxRetries = 3 times by
    [retryApiCall] with default options, the observer is notified after
    the first and the second failure, and the API_ERROR of the third
    invocation propagates to the caller. *)
Theorem api_error_is_retried
    (Math_pow : number -> number -> number) (Math_random : nat -> number)
    (T : Type) (operation : nat -> result T exn) (e : nat -> AppError) :
  (forall i, operation i = Throw (AppErr (e i))) ->
  (forall i, code (e i) = API_ERROR) ->
  let r := retryApiCall Math_pow Math_random operation no_options in
  includes_code (strategy_retryableErrors API_RETRY_STRATEGY) API_ERROR = true
  /\ calls r = 3%nat
  /\ outcome r = Throw (AppErr (e 2%nat))
  /\ notifications (events r)
     = [ (ApiCallLogger, 1, AppErr (e 0%nat));
         (ApiCallLogger, 2, AppErr (e 1%nat)) ].
Proof.
  intros Hop Hcode r. subst r.
  unfold retryApiCall, retryWithBackoff.
  cbn. change (Z.to_nat 3) with 3%nat. cbn.
  rewrite !Hop. cbn. rewrite !Hcode. cbn.
  repeat split.
Qed.

Lemma api_error_is_retried_witness :
  calls (retryApiCall Samples.pow Samples.random
           (fun _ => Throw (AppErr Samples.api_error) : result unit exn)
           no_options) = 3%nat.
Proof.
  exact (proj1 (proj2 (api_error_is_retried Samples.pow Samples.random unit
                         (fun _ => Throw (AppErr Samples.api_error))
                         (fun _ => Samples.api_error)
                         (fun _ => eq_refl) (fun _ => eq_refl)))).
Defined.

End RetryFacts.

(** ** The recoverable field *)

Module RecoverableFacts.

(** [createAppError] derives recoverable from the category of the code,
    whatever message and suggestions the caller supplies. *)
Lemma createAppError_recoverable (c : ErrorCode)
    (originalMessage : option string)
    (customSuggestions : option (list string)) :
  (recoverable (createAppError c originalMessage customSuggestions) = false
   <-> ERROR_CATEGORIES c = CRITICAL_ERROR)
  /\ (ERROR_CATEGORIES c = CRITICAL_ERROR <-> c = API_ERROR)
  /\ code (createAppError c originalMessage customSuggestions) = c.
Proof.
  repeat split; destruct c; cbn; congruence.
Qed.

(** On the image analysis path the thrown [AppError] has recoverable set
    to whether its code is in the retryable codes in force. *)
Lemma analysisCall_recoverable
    (fetch_analyze : nat -> result AnalyzeResponse string)
    (opts : RetryOptions) (i : nat) (e : AppError) :
  analysisCall fetch_analyze opts i = Throw (AppErr e) ->
  recoverable e
  = includes_code (default [] (retryableErrors opts)) (code e).
Proof.
  unfold analysisCall.
  destruct (fetch_analyze i) as [r|msg]; [|discriminate].
  destruct (negb (success r)); [|discriminate].
  destruct (error r) as [err|]; [|discriminate].
  intros [= <-]. reflexivity.
Qed.

(** The answer of [/api/analyze] for error [c], as [POST] builds it. *)
Definition failure_response (c : ErrorCode) (msg : string) (st : Z)
  : AnalyzeResponse :=
  let e := createAppError c (Some msg) None in
  {| success := false; data := None;
     error := Some {| err_code := code e; err_message := message e;
                      err_suggestions := Some (suggestions e) |};
     status := st |}.

(** The options [useDataExtractor] passes. *)
Definition extractor_options : RetryOptions :=
  {| maxRetries := None; baseDelay := None; maxDelay := None;
     backoffMultiplier := None; retryableErrors := None;
     onRetry := Some (CallerObserver "Retrying image analysis") |}.

Definition thrown_recoverable {T} (r : Run T) : option (ErrorCode * bool) :=
  match outcome r with
  | Throw (AppErr e) => Some (code e, recoverable e)
  | _ => None
  end.

(** C3, on the code. [retryImageAnalysis] surfaces an API_ERROR, whose
    category is CRITICAL_ERROR, with recoverable = true, and a
    NO_PRICE_DETECTED, whose category is USER_ERROR, with recoverable =
    false; with a caller-supplied empty retryableErrors the API_ERROR
    has recoverable = false. *)
Theorem retryImageAnalysis_recoverable_from_retryability :
  let auth := fun _ : nat =>
    Ok (failure_response API_ERROR "API authentication failed" 401)
    : result AnalyzeResponse string in
  let noprice := fun _ : nat =>
    Ok (failure_response NO_PRICE_DETECTED
          "Could not clearly detect price information" 422)
    : result AnalyzeResponse string in
  ERROR_CATEGORIES API_ERROR = CRITICAL_ERROR
  /\ thrown_recoverable
       (retryImageAnalysis Samples.pow Samples.random auth
          "data:image/jpeg;base64,AAAA" "image/jpeg" extractor_options)
     = Some (API_ERROR, true)
  /\ ERROR_CATEGORIES NO_PRICE_DETECTED = USER_ERROR
  /\ thrown_recoverable
       (retryImageAnalysis Samples.pow Samples.random noprice
          "data:image/jpeg;base64,AAAA" "image/jpeg" extractor_options)
     = Some (NO_PRICE_DETECTED, false)
  /\ thrown_recoverable
       (retryImageAnalysis Samples.pow Samples.random auth
          "data:image/jpeg;base64,AAAA" "image/jpeg"
          {| maxRetries := None; baseDelay := None; maxDelay := None;
             backoffMultiplier := None; retryableErrors := Some [];
             onRetry := None |})
     = Some (API_ERROR, false).
Proof. cbv zeta. repeat split. Qed.

End RecoverableFacts.

(** ** Validation of the extracted data *)

Module ValidationFacts.
Import DataExtractor AnalyzeRoute.

Definition with_price_confidence (c : number) (d : ExtractedData)
  : ExtractedData :=
  {| price :=
       match price d with
       | Some p => Some {| price_value := price_value p;
                           price_currency := price_currency p;
                           price_confidence := c |}
       | None => None
       end;
     weight := weight d;
     product := product d |}.

Definition milk (price_conf : number) : ExtractedData :=
  {| price := Some {| price_value := 2.5; price_currency := "EUR";
                      price_confidence := price_conf |};
     weight := Some {| weight_value := 500; weight_unit := "g";
                       weight_confidence := 0.9 |};
     product := Some {| product_name := "Leche"; product_brand := "";
                        product_confidence := 0.85 |} |}.

(** A price read with confidence 0.2 passes [validateExtractedData]. *)
Lemma validateExtractedData_ignores_confidence :
  (exists p, price (milk 0.2) = Some p
             /\ PrimFloat.ltb (price_confidence p) 0.3 = true)
  /\ validateExtractedData (milk 0.2) = None.
Proof. split; [eexists; split|]; reflexivity. Qed.

(** C2 (amended). The check of [POST] answers NO_PRICE_DETECTED (status
    422) for every extraction result whose price confidence is below
    0.3, whatever the price value; [validateExtractedData] does not read
    the confidence: its verdict is the same for every price confidence,
    and it is NO_PRICE_DETECTED exactly when the price is missing, its
    value is at most zero or its currency is empty. *)
Theorem low_price_confidence_rejected_by_route :
  (forall p w pr,
      PrimFloat.ltb (price_confidence p) 0.3 = true ->
      success (POST_check p w pr) = false
      /\ status (POST_check p w pr) = 422
      /\ data (POST_check p w pr) = None
      /\ exists body, error (POST_check p w pr) = Some body
                      /\ err_code body = NO_PRICE_DETECTED)
  /\ (forall d c,
        validateExtractedData (with_price_confidence c d)
        = validateExtractedData d)
  /\ (forall d,
        (exists e, validateExtractedData d = Some e
                   /\ code e = NO_PRICE_DETECTED)
        <-> match price d with
            | None => True
            | Some p => PrimFloat.leb (price_value p) 0 = true
                        \/ price_currency p = ""
            end).
Proof.
  split; [|split].
  - intros p w pr Hc. unfold POST_check. rewrite Hc.
    cbn [orb app length Nat.ltb Nat.leb includes existsb String.eqb
         Ascii.eqb Bool.eqb success status data error err_code code
         createAppError].
    repeat split. eexists. split; reflexivity.
  - intros d c. unfold validateExtractedData, with_price_confidence.
    destruct (price d); reflexivity.
  - intros d. unfold validateExtractedData.
    destruct (price d) as [p|].
    + destruct (PrimFloat.leb (price_value p) 0) eqn:Hv; cbn [orb].
      { split; [auto | intros _; eexists; split; reflexivity]. }
      destruct (String.eqb_spec (price_currency p) "") as [Hcur|Hcur].
      { split; [auto | intros _; eexists; split; reflexivity]. }
      split.
      * intros [e [He Hcode]].
        repeat match type of He with
               | (if ?b then _ else _) = _ => destruct b
               end;
          try discriminate He;
          injection He as <-; discriminate Hcode.
      * intros [H | H]; congruence.
    + split; [auto | intros _; eexists; split; reflexivity].
Qed.

Lemma low_price_confidence_rejected_by_route_witness :
  let p := {| price_value := 2.5; price_currency := "EUR";
              price_confidence := 0.2 |} in
  let w := {| weight_value := 500; weight_unit := "g";
              weight_confidence := 0.9 |} in
  let pr := {| product_name := "Leche"; product_brand := "";
               product_confidence := 0.85 |} in
  status (POST_check p w pr) = 422.
Proof.
  intros p w pr.
  exact (proj1 (proj2 (proj1 low_price_confidence_rejected_by_route
                         p w pr eq_refl))).
Defined.

End ValidationFacts.

(** ** Circuit breaker *)

Module CircuitBreakerFacts.

(** The states a breaker created with the given parameters goes through
    under [execute] calls: the states between calls, and the states in
    which an admitted operation runs. *)
Inductive reachable (threshold timeout : Z) : CircuitBreaker -> Prop :=
| reach_new :
    reachable threshold timeout (new_CircuitBreaker threshold timeout)
| reach_executed (T : Type) b now (operation : unit -> result T exn) later :
    reachable threshold timeout b ->
    reachable threshold timeout (breaker (execute b now operation later))
| reach_probed (T : Type) b now (operation : unit -> result T exn) later b' :
    reachable threshold timeout b ->
    probed (execute b now operation later) = Some b' ->
    reachable threshold timeout b'.

(** One call of [execute], with the clock readings around it. *)
Record Call (T : Type) := {
  entered : Z;
  operation_of : unit -> result T exn;
  settled : Z
}.
Arguments entered {T} _.
Arguments operation_of {T} _.
Arguments settled {T} _.

Definition execute_call {T} (b : CircuitBreaker) (c : Call T) : Exec T :=
  execute b (entered c) (operation_of c) (settled c).

(** Successive calls on one breaker. *)
Fixpoint execute_all {T} (b : CircuitBreaker) (cs : list (Call T))
  : CircuitBreaker :=
  match cs with
  | [] => b
  | c :: r => execute_all (breaker (execute_call b c)) r
  end.

Definition fails {T} (c : Call T) : Prop :=
  exists e, operation_of c tt = Throw e.

Definition opened (b : CircuitBreaker) : Prop :=
  state b = OPEN \/ state b = HALF_OPEN.

Lemma execute_cases {T} b now (operation : unit -> result T exn) later :
  (state b = OPEN
   /\ (now - lastFailureTime b >? recoveryTimeout b) = false
   /\ execute b now operation later
      = {| returned := Throw (JsError "Circuit breaker is OPEN");
           breaker := b; probed := None |})
  \/ exists b',
       b' = (if match state b with OPEN => true | _ => false end
             then set_state b HALF_OPEN else b)
       /\ (state b = OPEN ->
           (now - lastFailureTime b >? recoveryTimeout b) = true)
       /\ probed (execute b now operation later) = Some b'
       /\ match operation tt with
          | Ok v =>
              returned (execute b now operation later) = Ok v
              /\ breaker (execute b now operation later) = onSuccess b'
          | Throw e =>
              returned (execute b now operation later) = Throw e
              /\ breaker (execute b now operation later) = onFailure b' later
          end.
Proof.
  unfold execute.
  destruct (state b) eqn:Hs;
    try (right; eexists; split; [reflexivity|];
         split; [discriminate|];
         destruct (operation tt); cbn; auto).
  destruct (now - lastFailureTime b >? recoveryTimeout b) eqn:Ht.
  - right. eexists. split; [reflexivity|]. split; [reflexivity|].
    destruct (operation tt); cbn; auto.
  - left. auto.
Qed.

Lemma reachable_invariant threshold timeout b :
  reachable threshold timeout b ->
  failureThreshold b = threshold
  /\ recoveryTimeout b = timeout
  /\ 0 <= failures b
  /\ (opened b -> threshold <= failures b).
Proof.
  unfold opened.
  induction 1 as [|T b now operation later Hb IH
                  |T b now operation later b' Hb IH Hp].
  - cbn. repeat split; try lia. intros [H|H]; discriminate H.
  - destruct IH as [Hth [Hto [Hf Hopen]]].
    destruct (execute_cases b now operation later)
      as [[Hs [Ht ->]] | [b' [Hb' [Ht [Hp Hop]]]]].
    + cbn. auto.
    + assert (Hb'inv : failureThreshold b' = threshold
                       /\ recoveryTimeout b' = timeout
                       /\ failures b' = failures b).
      { subst b'. destruct (state b); cbn; auto. }
      destruct Hb'inv as [Hth' [Hto' Hf']].
      destruct (operation tt) as [v|e]; destruct Hop as [_ ->].
      * cbn. repeat split; try lia; auto. intros [H|H]; discriminate H.
      * cbn. rewrite Hth', Hf'. repeat split; try lia; auto.
        destruct (Z.leb_spec threshold (failures b + 1)); [lia|].
        intros Hs. assert (threshold <= failures b); [|lia].
        apply Hopen. subst b'.
        destruct (state b) eqn:Hsb; cbn in Hs; try rewrite Hsb in Hs; auto.
  - destruct IH as [Hth [Hto [Hf Hopen]]].
    destruct (execute_cases b now operation later)
      as [[Hs [Ht Hx]] | [b'' [Hb'' [Ht [Hp' Hop]]]]].
    + rewrite Hx in Hp. discriminate Hp.
    + rewrite Hp' in Hp. injection Hp as <-. subst b''.
      destruct (state b) eqn:Hs; cbn; repeat split; auto;
        try rewrite Hs; auto.
Qed.

(** C6. In every state a breaker reaches from its initial state by
    [execute] calls, an OPEN or HALF_OPEN state has failures >=
    failureThreshold; hence a failure in state HALF_OPEN sets the state
    to OPEN at once, and a call whose operation ran in state HALF_OPEN
    and failed leaves the breaker OPEN. *)
Theorem failed_probe_reopens (threshold timeout : Z) (b : CircuitBreaker) :
  reachable threshold timeout b ->
  (opened b -> failureThreshold b <= failures b)
  /\ (state b = HALF_OPEN ->
      forall t, state (onFailure b t) = OPEN
                /\ failures (onFailure b t) = failures b + 1)
  /\ (forall (T : Type) now (operation : unit -> result T exn) later b' e,
        probed (execute b now operation later) = Some b' ->
        state b' = HALF_OPEN ->
        operation tt = Throw e ->
        state (breaker (execute b now operation later)) = OPEN).
Proof.
  intros Hr.
  destruct (reachable_invariant _ _ _ Hr) as [Hth [Hto [Hf Hopen]]].
  split; [|split].
  - intros Ho. rewrite Hth. auto.
  - intros Hs t. unfold onFailure. cbn. split; [|reflexivity].
    destruct (Z.leb_spec (failureThreshold b) (failures b + 1)); auto.
    assert (threshold <= failures b) by (apply Hopen; right; exact Hs).
    lia.
  - intros T now operation later b' e Hp Hs Hop.
    assert (Hr' : reachable threshold timeout b')
      by (eapply reach_probed; eauto).
    destruct (reachable_invariant _ _ _ Hr') as [Hth' [_ [_ Hopen']]].
    destruct (execute_cases b now operation later)
      as [[_ [_ Hx]] | [b'' [_ [_ [Hp' Hop']]]]].
    + rewrite Hx in Hp. discriminate Hp.
    + rewrite Hp' in Hp. injection Hp as ->.
      rewrite Hop in Hop'. destruct Hop' as [_ ->]. cbn.
      destruct (Z.leb_spec (failureThreshold b') (failures b' + 1)); auto.
      assert (threshold <= failures b') by (apply Hopen'; right; exact Hs).
      lia.
Qed.

(** A breaker with threshold 1 that failed at time 0 and is probed at
    time 2000, after its timeout of 1000. *)
Definition failing : unit -> result string exn :=
  fun _ => Throw (JsError "fail").

Definition tripped : CircuitBreaker :=
  breaker (execute (new_CircuitBreaker 1 1000) 0 failing 0).

Definition probing : CircuitBreaker := set_state tripped HALF_OPEN.

Lemma probing_reachable : reachable 1 1000 probing.
Proof.
  apply (reach_probed 1 1000 string tripped 2000 failing 2000 probing).
  - apply (reach_executed 1 1000 string _ 0 failing 0). apply reach_new.
  - reflexivity.
Defined.

Lemma failed_probe_reopens_witness :
  state probing = HALF_OPEN /\ state (onFailure probing 2000) = OPEN.
Proof.
  split; [reflexivity|].
  exact (proj1 (proj1 (proj2 (failed_probe_reopens 1 1000 probing
                                probing_reachable)) eq_refl 2000)).
Defined.

(** *** Consecutive failures *)

(** What holds of a breaker between calls. *)
Definition settled_state (b : CircuitBreaker) : Prop :=
  state b <> HALF_OPEN
  /\ (state b = OPEN -> failureThreshold b <= failures b).

Lemma failing_call_step {T} (b : CircuitBreaker) (c : Call T) :
  fails c -> settled_state b ->
  let b' := breaker (execute_call b c) in
  failureThreshold b' = failureThreshold b
  /\ recoveryTimeout b' = recoveryTimeout b
  /\ settled_state b'
  /\ (state b = OPEN -> state b' = OPEN)
  /\ (state b' = OPEN
      \/ (state b' = CLOSED /\ failures b' = failures b + 1
          /\ failures b' < failureThreshold b)).
Proof.
  intros [e He] [Hno Hopen]. unfold execute_call, settled_state.
  destruct (execute_cases b (entered c) (operation_of c) (settled c))
    as [[Hs [_ ->]] | [b1 [Hb1 [_ [_ Hop]]]]]; cbn zeta.
  - cbn. repeat split; auto.
  - rewrite He in Hop. destruct Hop as [_ ->].
    assert (Hf : failureThreshold b1 = failureThreshold b
                 /\ recoveryTimeout b1 = recoveryTimeout b
                 /\ failures b1 = failures b).
    { subst b1. destruct (state b); cbn; auto. }
    destruct Hf as [Hth [Hto Hf]].
    cbn. rewrite Hth, Hf.
    destruct (Z.leb_spec (failureThreshold b) (failures b + 1)) as [Hle|Hlt].
    + repeat split; auto; try discriminate.
    + assert (Hc : state b = CLOSED).
      { destruct (state b) eqn:Hs; auto.
        - specialize (Hopen eq_refl). lia.
        - congruence. }
      assert (Hc1 : state b1 = CLOSED).
      { subst b1. rewrite Hc. exact Hc. }
      rewrite Hc1. repeat split; auto; try discriminate; try congruence.
Qed.

Lemma consecutive_failures {T} (cs : list (Call T)) :
  forall b, Forall fails cs -> settled_state b ->
  let b' := execute_all b cs in
  failureThreshold b' = failureThreshold b
  /\ recoveryTimeout b' = recoveryTimeout b
  /\ (state b = OPEN -> state b' = OPEN)
  /\ (state b' = OPEN
      \/ cs = []
      \/ (failures b' = failures b + Z.of_nat (length cs)
          /\ failures b' < failureThreshold b)).
Proof.
  induction cs as [|c r IH]; intros b Hall Hb; cbn zeta.
  - cbn. repeat split; auto.
  - inversion Hall as [|c' r' Hc Hr]; subst.
    destruct (failing_call_step b c Hc Hb)
      as [Hth [Hto [Hb1 [Hstay Hnext]]]].
    destruct (IH _ Hr Hb1) as [Hth' [Hto' [Hstay' Hend]]].
    cbn [execute_all].
    split; [congruence|]. split; [congruence|]. split; [auto|].
    destruct Hnext as [Ho | [Hc1 [Hf1 Hlt1]]]; [left; auto|].
    destruct Hend as [Ho | [-> | [Hf Hlt]]]; [left; auto | | ].
    + right. right. cbn. split; lia.
    + right. right. cbn [length]. rewrite Hth in Hlt. split; lia.
Qed.

Lemma consecutive_failures_open {T} (b : CircuitBreaker) (cs : list (Call T)) :
  state b = CLOSED -> 0 <= failures b -> 1 <= failureThreshold b ->
  length cs = Z.to_nat (failureThreshold b) ->
  Forall fails cs ->
  state (execute_all b cs) = OPEN
  /\ failureThreshold (execute_all b cs) = failureThreshold b
  /\ recoveryTimeout (execute_all b cs) = recoveryTimeout b.
Proof.
  intros Hc Hf Hth Hlen Hall.
  assert (Hb : settled_state b).
  { split; rewrite Hc; [discriminate | discriminate]. }
  destruct (consecutive_failures cs b Hall Hb) as [H1 [H2 [_ Hend]]].
  split; [|auto].
  destruct Hend as [Ho | [-> | [Hfail Hlt]]]; [exact Ho | | ].
  - cbn in Hlen. lia.
  - rewrite Hlen in Hfail. lia.
Qed.

Lemma execute_rejects {T} b now (operation : unit -> result T exn) later :
  state b = OPEN ->
  now - lastFailureTime b <= recoveryTimeout b ->
  execute b now operation later
  = {| returned := Throw (JsError "Circuit breaker is OPEN");
       breaker := b; probed := None |}.
Proof.
  intros Hs Ht. unfold execute. rewrite Hs.
  destruct (Z.gtb_spec (now - lastFailureTime b) (recoveryTimeout b));
    [lia | reflexivity].
Qed.




Definition failing_call (t : Z) : Call string :=
  {| entered := t; operation_of := failing; settled := t + 5 |}.


(** *** resilientApiCall on the shared breaker *)

Record Request (T : Type) := {
  req_now : Z;
  req_operation : nat -> result T exn;
  req_options : RetryOptions;
  req_later : Z
}.
Arguments req_now {T} _.
Arguments req_operation {T} _.
Arguments req_options {T} _.
Arguments req_later {T} _.

Definition always_throws {T} (operation : nat -> result T exn) : Prop :=
  forall i, exists e, operation i = Throw e.

Section Serving.

Variable Math_pow : number -> number -> number.
Variable Math_random : nat -> number.

Definition serve {T} (b : CircuitBreaker) (rq : Request T)
  : Exec T * option (Run T) :=
  resilientApiCall Math_pow Math_random b (req_now rq)
    (req_operation rq) (req_options rq) (req_later rq).

(** Successive callers of [resilientApiCall]. *)
Fixpoint serve_all {T} (b : CircuitBreaker) (rqs : list (Request T))
  : CircuitBreaker :=
  match rqs with
  | [] => b
  | rq :: r => serve_all (breaker (fst (serve b rq))) r
  end.

Definition call_of {T} (rq : Request T) : Call T :=
  {| entered := req_now rq;
     operation_of := fun _ =>
       outcome (retryApiCall Math_pow Math_random
                  (req_operation rq) (req_options rq));
     settled := req_later rq |}.

Lemma serve_all_execute_all {T} (rqs : list (Request T)) :
  forall b, serve_all b rqs = execute_all b (map call_of rqs).
Proof.
  induction rqs as [|rq r IH]; intros b; cbn; [reflexivity|].
  apply IH.
Qed.

Lemma attempts_always_throw {T} (operation : nat -> result T exn) opts :
  always_throws operation ->
  forall n a i last,
    exists e,
      outcome (attempts Math_pow Math_random operation opts n a i last)
      = Throw e.
Proof.
  intros Hop. induction n as [|n IH]; intros a i last; cbn.
  - eauto.
  - destruct (Hop i) as [e ->].
    destruct (negb _); [cbn; eauto|].
    destruct (match maxRetries opts with
              | Some m => a =? m
              | None => false
              end); cbn; eauto.
Qed.

Lemma call_of_fails {T} (rq : Request T) :
  always_throws (req_operation rq) -> fails (call_of rq).
Proof.
  intros Hop. unfold fails, call_of, retryApiCall, retryWithBackoff. cbn.
  apply attempts_always_throw. exact Hop.
Qed.

End Serving.

(** C10. Whatever the operation given to [execute] throws, the call
    rethrows it and adds one to the failure count; hence five
    consecutive calls of [resilientApiCall] whose operations fail, with
    any errors, user errors that are never retried included, leave the
    shared [apiCircuitBreaker] OPEN, and the next caller within the
    recovery timeout gets "Circuit breaker is OPEN" without its
    operation being invoked. *)
Theorem every_failure_counts
    (Math_pow : number -> number -> number) (Math_random : nat -> number) :
  (forall (T : Type) b now (operation : unit -> result T exn) later e b0,
      probed (execute b now operation later) = Some b0 ->
      operation tt = Throw e ->
      returned (execute b now operation later) = Throw e
      /\ failures (breaker (execute b now operation later))
         = failures b + 1)
  /\ (forall (T : Type) (rqs : list (Request T)),
      length rqs = 5%nat ->
      Forall (fun rq => always_throws (req_operation rq)) rqs ->
      let b := serve_all Math_pow Math_random apiCircuitBreaker rqs in
      state b = OPEN
      /\ forall (T' : Type) now (operation : nat -> result T' exn)
                options later,
           now - lastFailureTime b <= 60000 ->
           resilientApiCall Math_pow Math_random b now operation options later
           = ({| returned := Throw (JsError "Circuit breaker is OPEN");
                 breaker := b; probed := None |}, None)).
Proof.
  split.
  - intros T b now operation later e b0 Hp Hop.
    destruct (execute_cases b now operation later)
      as [[_ [_ Hx]] | [b1 [Hb1 [_ [_ Hop']]]]].
    + rewrite Hx in Hp. discriminate Hp.
    + rewrite Hop in Hop'. destruct Hop' as [-> ->].
      split; [reflexivity|]. subst b1. destruct (state b); reflexivity.
  - intros T rqs Hlen Hall b. subst b.
    rewrite serve_all_execute_all.
    destruct (consecutive_failures_open apiCircuitBreaker
                (map (call_of Math_pow Math_random) rqs))
      as [Ho [_ Hto]];
      try reflexivity; try (cbn; lia).
    { rewrite length_map. exact Hlen. }
    { clear Hlen. induction Hall as [|rq r Hrq Hr IH]; cbn;
        constructor; [apply call_of_fails; exact Hrq | exact IH]. }
    split; [exact Ho|].
    intros T' now operation options later Ht.
    unfold resilientApiCall.
    rewrite execute_rejects; [reflexivity | exact Ho | ].
    rewrite Hto. exact Ht.
Qed.

(** Five callers whose uploads have an unsupported format, then one
    whose call would succeed. *)
Definition bad_format (t : Z) : Request string :=
  {| req_now := t;
     req_operation := Samples.always_fails Samples.format_error;
     req_options := no_options;
     req_later := t + 1 |}.

Lemma every_failure_counts_witness :
  let b := serve_all Samples.pow Samples.random apiCircuitBreaker
             [bad_format 0; bad_format 10; bad_format 20;
              bad_format 30; bad_format 40] in
  failures b = 5
  /\ resilientApiCall Samples.pow Samples.random b 1000
       (fun _ => Ok "success") no_options 1001
     = ({| returned := Throw (JsError "Circuit breaker is OPEN");
           breaker := b; probed := None |}, None).
Proof.
  cbv zeta. split; [reflexivity|].
  refine (proj2 (proj2 (every_failure_counts Samples.pow Samples.random)
                   string
                   [bad_format 0; bad_format 10; bad_format 20;
                    bad_format 30; bad_format 40] eq_refl _)
            string 1000 (fun _ => Ok "success") no_options 1001 _).
  - repeat constructor; intros i; eexists; reflexivity.
  - vm_compute. discriminate.
Defined.

End CircuitBreakerFacts.

(** * Further properties *)

(** ** Retry driver: bounds and edge cases *)

Module RetryMore.
Import RetryFacts.

Fixpoint sleeps (evs : list Event) : nat :=
  match evs with
  | EvSleep _ :: r => S (sleeps r)
  | _ :: r => sleeps r
  | [] => O
  end.

Definition retryable_in (opts : RetryOptions) (e : exn) : bool :=
  shouldRetryError (exn_code e) (default [] (retryableErrors opts)).

Section Attempts.

Variable Math_pow : number -> number -> number.
Variable Math_random : nat -> number.
Context {T : Type}.
Variable operation : nat -> result T exn.
Variable opts : RetryOptions.

Abbreviation run := (attempts Math_pow Math_random operation opts).

Lemma attempts_calls_le n : forall a i last,
  (calls (run n a i last) <= n)%nat.
Proof.
  induction n as [|n IH]; intros a i last; cbn; [lia|].
  destruct (operation i) as [v|e]; cbn; [lia|].
  destruct (negb _); cbn; [lia|].
  destruct (match maxRetries opts with Some m => a =? m | None => false end);
    cbn; [lia|].
  specialize (IH (a + 1) (S i) (Some e)). lia.
Qed.

Lemma sleeps_app (l1 l2 : list Event) :
  sleeps (l1 ++ l2)%list = (sleeps l1 + sleeps l2)%nat.
Proof.
  induction l1 as [|x l1 IH]; cbn; [reflexivity|].
  destruct x; cbn; rewrite IH; reflexivity.
Qed.

(** Every invocation but the last failed with a retryable code; a value
    that is returned comes from the last invocation, after one sleep per
    earlier invocation. *)
Lemma attempts_prefix n : forall a i last,
  (forall j, (S j < calls (run n a i last))%nat ->
     exists e, operation (i + j)%nat = Throw e /\ retryable_in opts e = true)
  /\ (forall v, outcome (run n a i last) = Ok v ->
        (1 <= calls (run n a i last))%nat
        /\ operation (i + calls (run n a i last) - 1)%nat = Ok v
        /\ sleeps (events (run n a i last))
           = (calls (run n a i last) - 1)%nat).
Proof.
  induction n as [|n IH]; intros a i last; cbn [attempts].
  { cbn. split; [intros j Hj; lia | intros v Hv; discriminate Hv]. }
  destruct (operation i) as [v0|e0] eqn:Hop.
  { cbn. split; [intros j Hj; lia|].
    intros v [= <-]. rewrite Nat.add_sub. auto. }
  destruct (negb _) eqn:Hre.
  { cbn. split; [intros j Hj; lia | intros v Hv; discriminate Hv]. }
  destruct (match maxRetries opts with Some m => a =? m | None => false end).
  { cbn. split; [intros j Hj; lia | intros v Hv; discriminate Hv]. }
  destruct (IH (a + 1) (S i) (Some e0)) as [Hpre Hok].
  cbn [outcome calls events]. split.
  - intros [|j] Hj.
    + rewrite Nat.add_0_r. exists e0. split; [exact Hop|].
      unfold retryable_in. destruct (shouldRetryError _ _); [reflexivity|].
      discriminate Hre.
    + replace (i + S j)%nat with (S i + j)%nat by lia. apply Hpre. lia.
  - intros v Hv. destruct (Hok v Hv) as [H1 [H2 H3]].
    split; [lia|]. split.
    + rewrite <- H2. f_equal. lia.
    + cbn [sleeps]. rewrite sleeps_app. cbn [sleeps]. rewrite H3.
      destruct (onRetry opts); cbn; lia.
Qed.

End Attempts.

(** X1. The driver never invokes the operation more often than the loop
    bound: maxRetries, or 3 when maxRetries is 0; with no maxRetries
    option [retryWithBackoff], [retryApiCall] and [retryImageAnalysis]
    make at most 3 invocations (requests). *)
Theorem retry_invocations_bounded
    (Math_pow : number -> number -> number) (Math_random : nat -> number) :
  (forall (T : Type) (operation : nat -> result T exn) options,
      (calls (retryWithBackoff Math_pow Math_random operation options)
       <= Z.to_nat (loop_bound (maxRetries (effective options))))%nat
      /\ invocations
           (events (retryWithBackoff Math_pow Math_random operation options))
         = calls (retryWithBackoff Math_pow Math_random operation options))
  /\ (forall (T : Type) (operation : nat -> result T exn) options,
      maxRetries options = None ->
      (calls (retryWithBackoff Math_pow Math_random operation options) <= 3)%nat
      /\ (calls (retryApiCall Math_pow Math_random operation options) <= 3)%nat)
  /\ (forall fetch_analyze imageData imageType options,
      maxRetries options = None ->
      (calls (retryImageAnalysis Math_pow Math_random fetch_analyze
                imageData imageType options) <= 3)%nat).
Proof.
  split; [|split].
  - intros T operation options. split.
    + apply attempts_calls_le.
    + apply invocations_calls.
  - intros T operation options Hm. split.
    + unfold retryWithBackoff. cbn. rewrite Hm. apply attempts_calls_le.
    + unfold retryApiCall, retryWithBackoff. cbn. rewrite Hm.
      apply attempts_calls_le.
  - intros fetch_analyze imageData imageType options Hm.
    unfold retryImageAnalysis, retryApiCall, retryWithBackoff, analysisOptions.
    cbn. rewrite Hm. apply attempts_calls_le.
Qed.

Lemma retry_invocations_bounded_witness :
  (calls (retryImageAnalysis Samples.pow Samples.random
            (fun _ => Throw "Failed to fetch") "AAAA" "image/png" no_options)
   <= 3)%nat.
Proof.
  exact (proj2 (proj2 (retry_invocations_bounded Samples.pow Samples.random))
           (fun _ => Throw "Failed to fetch") "AAAA" "image/png" no_options
           eq_refl).
Defined.

(** X2. With a negative maxRetries the loop body never runs: the
    operation is not invoked, nothing is observed, and the driver throws
    the error "Retry failed with unknown error". *)
Theorem negative_maxRetries_never_invokes
    (Math_pow : number -> number -> number) (Math_random : nat -> number)
    (T : Type) (operation : nat -> result T exn) (options : RetryOptions)
    (m : Z) :
  maxRetries options = Some m -> m < 0 ->
  retryWithBackoff Math_pow Math_random operation options
  = {| outcome := Throw (JsError "Retry failed with unknown error");
       calls := 0; events := [] |}.
Proof.
  intros Hm Hneg. unfold retryWithBackoff. cbn. rewrite Hm. cbn.
  destruct m; try lia. reflexivity.
Qed.

Definition with_maxRetries (m : Z) (f : option Observer) : RetryOptions :=
  {| maxRetries := Some m; baseDelay := None; maxDelay := None;
     backoffMultiplier := None; retryableErrors := None; onRetry := f |}.

Lemma negative_maxRetries_never_invokes_witness :
  calls (retryWithBackoff Samples.pow Samples.random Samples.fails_twice
           (with_maxRetries (-1) None)) = 0%nat.
Proof.
  rewrite (negative_maxRetries_never_invokes Samples.pow Samples.random
             string Samples.fails_twice (with_maxRetries (-1) None) (-1)
             eq_refl eq_refl).
  reflexivity.
Defined.

(** X3. With maxRetries = 0 the loop runs up to 3 times but no attempt
    counts as the last one: after three failures with retryable codes the
    observer has been notified three times, the third time after the
    final attempt, the driver has slept three times, and the third error
    is thrown. *)
Theorem zero_maxRetries_notifies_after_last_attempt
    (Math_pow : number -> number -> number) (Math_random : nat -> number)
    (T : Type) (operation : nat -> result T exn) (options : RetryOptions)
    (f : Observer) (e0 e1 e2 : exn) :
  maxRetries options = Some 0 ->
  onRetry options = Some f ->
  operation 0%nat = Throw e0 ->
  operation 1%nat = Throw e1 ->
  operation 2%nat = Throw e2 ->
  retryable_in (effective options) e0 = true ->
  retryable_in (effective options) e1 = true ->
  retryable_in (effective options) e2 = true ->
  let r := retryWithBackoff Math_pow Math_random operation options in
  outcome r = Throw e2
  /\ calls r = 3%nat
  /\ notifications (events r) = [(f, 1, e0); (f, 2, e1); (f, 3, e2)]
  /\ sleeps (events r) = 3%nat.
Proof.
  intros Hm Hf H0 H1 H2 R0 R1 R2 r. subst r.
  unfold retryable_in, effective in *.
  unfold retryWithBackoff.
  set (opts := spread DEFAULT_RETRY_OPTIONS options) in *.
  assert (Hm' : maxRetries opts = Some 0) by (subst opts; cbn; now rewrite Hm).
  assert (Hf' : onRetry opts = Some f) by (subst opts; cbn; now rewrite Hf).
  rewrite Hm'. change (Z.to_nat (loop_bound (Some 0))) with 3%nat.
  cbn [attempts]. rewrite H0, H1, H2, R0, R1, R2, Hm', Hf'.
  cbn [negb]. change (1 =? 0) with false.
  change (1 + 1 =? 0) with false. change (1 + 1 + 1 =? 0) with false.
  cbn [outcome calls events notifications app sleeps].
  repeat split.
Qed.

Lemma zero_maxRetries_notifies_after_last_attempt_witness :
  calls (retryWithBackoff Samples.pow Samples.random
           (Samples.always_fails Samples.network_error)
           (with_maxRetries 0 (Some ApiCallLogger))) = 3%nat.
Proof.
  exact (proj1 (proj2 (zero_maxRetries_notifies_after_last_attempt
           Samples.pow Samples.random string
           (Samples.always_fails Samples.network_error)
           (with_maxRetries 0 (Some ApiCallLogger))
           ApiCallLogger
           (AppErr Samples.network_error) (AppErr Samples.network_error)
           (AppErr Samples.network_error)
           eq_refl eq_refl eq_refl eq_refl eq_refl
           eq_refl eq_refl eq_refl))).
Defined.

(** X4. A value returned by [retryWithBackoff] is the value of the last
    invocation; every earlier invocation failed with a code in
    retryableErrors, and the driver slept exactly once after each of
    them. *)
Theorem retry_returns_first_success
    (Math_pow : number -> number -> number) (Math_random : nat -> number)
    (T : Type) (operation : nat -> result T exn) (options : RetryOptions)
    (v : T) :
  let r := retryWithBackoff Math_pow Math_random operation options in
  outcome r = Ok v ->
  (1 <= calls r)%nat
  /\ operation (calls r - 1)%nat = Ok v
  /\ (forall j, (S j < calls r)%nat ->
        exists e, operation j = Throw e
                  /\ retryable_in (effective options) e = true)
  /\ sleeps (events r) = (calls r - 1)%nat.
Proof.
  intros r Hv. subst r. unfold retryWithBackoff in *.
  fold (effective options) in *.
  destruct (attempts_prefix Math_pow Math_random operation (effective options)
              (Z.to_nat (loop_bound (maxRetries (effective options))))
              1 0%nat None) as [Hpre Hok].
  destruct (Hok v Hv) as [H1 [H2 H3]].
  split; [exact H1|]. split; [exact H2|]. split; [|exact H3].
  intros j Hj. apply (Hpre j Hj).
Qed.

Lemma retry_returns_first_success_witness :
  sleeps (events (retryWithBackoff Samples.pow Samples.random
                    Samples.fails_twice Samples.network_only)) = 2%nat.
Proof.
  exact (proj2 (proj2 (proj2 (retry_returns_first_success
           Samples.pow Samples.random string Samples.fails_twice
           Samples.network_only "success" eq_refl)))).
Defined.

End RetryMore.

(** ** Image analysis requests *)

Module AnalysisMore.
Import RetryFacts RetryMore.

(** X5. A thrown value that has no code is never retried, whatever the
    retryable codes: it propagates after one invocation. So a request of
    [retryImageAnalysis] that is rejected by [fetch] itself (or whose
    body cannot be read) is not repeated. *)
Theorem thrown_value_without_code_not_retried
    (Math_pow : number -> number -> number) (Math_random : nat -> number) :
  (forall (T : Type) (operation : nat -> result T exn) options msg m,
      maxRetries (effective options) = Some m -> 0 <= m ->
      operation 0%nat = Throw (JsError msg) ->
      retryWithBackoff Math_pow Math_random operation options
      = {| outcome := Throw (JsError msg); calls := 1;
           events := [EvInvoke] |})
  /\ (forall fetch_analyze imageData imageType options msg,
      maxRetries options = None ->
      fetch_analyze 0%nat = Throw msg ->
      retryImageAnalysis Math_pow Math_random fetch_analyze
        imageData imageType options
      = {| outcome := Throw (JsError msg); calls := 1;
           events := [EvInvoke] |}).
Proof.
  split.
  - intros T operation options msg m Hm Hpos Hop.
    unfold retryWithBackoff. fold (effective options). rewrite Hm.
    destruct (Z.to_nat (loop_bound (Some m))) as [|n] eqn:Hn.
    { unfold loop_bound in Hn. destruct m; lia. }
    apply attempts_not_retryable; [exact Hop | reflexivity].
  - intros fetch_analyze imageData imageType options msg Hm Hop.
    unfold retryImageAnalysis, retryApiCall, retryWithBackoff.
    unfold analysisOptions. cbn. rewrite Hm.
    change (Z.to_nat 3) with 3%nat.
    apply attempts_not_retryable; [|reflexivity].
    unfold analysisCall. rewrite Hop. reflexivity.
Qed.

Lemma thrown_value_without_code_not_retried_witness :
  calls (retryImageAnalysis Samples.pow Samples.random
           (fun _ => Throw "Failed to fetch") "AAAA" "image/png" no_options)
  = 1%nat.
Proof.
  rewrite (proj2 (thrown_value_without_code_not_retried
                    Samples.pow Samples.random)
             (fun _ => Throw "Failed to fetch") "AAAA" "image/png" no_options
             "Failed to fetch" eq_refl eq_refl).
  reflexivity.
Defined.

(** X6. With the default retryable codes, [retryImageAnalysis] returns a
    successful answer after one request, and surfaces an answer that
    reports a user error after one request too, as an [AppError] that
    carries the answer's code and suggestions, the answer's message both
    as message and as userMessage, and recoverable = false. *)
Theorem retryImageAnalysis_single_request
    (Math_pow : number -> number -> number) (Math_random : nat -> number)
    (fetch_analyze : nat -> result AnalyzeResponse string)
    (imageData imageType : string) (options : RetryOptions)
    (resp : AnalyzeResponse) :
  maxRetries options = None ->
  retryableErrors options = None ->
  fetch_analyze 0%nat = Ok resp ->
  let r := retryImageAnalysis Math_pow Math_random fetch_analyze
             imageData imageType options in
  (success resp = true -> outcome r = Ok resp /\ calls r = 1%nat)
  /\ (forall body,
        success resp = false -> error resp = Some body ->
        ERROR_CATEGORIES (err_code body) = USER_ERROR ->
        calls r = 1%nat
        /\ outcome r
           = Throw (AppErr {| code := err_code body;
                              message := err_message body;
                              userMessage := err_message body;
                              suggestions := default [] (err_suggestions body);
                              recoverable := false |})).
Proof.
  intros Hm Hr Hop r. subst r.
  unfold retryImageAnalysis, retryApiCall, retryWithBackoff.
  set (ao := analysisOptions imageData imageType options).
  match goal with
  | |- context [attempts _ _ _ ?o _ _ _ _] => set (fo := o)
  end.
  assert (Har : retryableErrors ao
                = Some [NETWORK_ERROR; API_RATE_LIMIT; API_ERROR]).
  { subst ao. unfold analysisOptions. cbn. rewrite Hr. reflexivity. }
  assert (Hfr : retryableErrors fo
                = Some [NETWORK_ERROR; API_RATE_LIMIT; API_ERROR]).
  { subst fo ao. unfold analysisOptions. cbn. rewrite Hr. reflexivity. }
  assert (Hfm : maxRetries fo = Some 3).
  { subst fo ao. unfold analysisOptions. cbn. rewrite Hm. reflexivity. }
  rewrite Hfm. change (Z.to_nat (loop_bound (Some 3))) with 3%nat.
  split.
  - intros Hs.
    assert (Hcall : analysisCall fetch_analyze ao 0 = Ok resp).
    { unfold analysisCall. rewrite Hop, Hs. reflexivity. }
    cbn [attempts]. rewrite Hcall. cbn. auto.
  - intros body Hs Hb Hcat.
    rewrite (attempts_not_retryable _ _ _ _ 2 1 0%nat None
               (AppErr {| code := err_code body;
                          message := err_message body;
                          userMessage := err_message body;
                          suggestions := default [] (err_suggestions body);
                          recoverable := false |})).
    + auto.
    + unfold analysisCall. rewrite Hop, Hs, Hb, Har. cbn.
      destruct (err_code body); try discriminate Hcat; reflexivity.
    + rewrite Hfr. cbn.
      destruct (err_code body); try discriminate Hcat; reflexivity.
Qed.

Lemma retryImageAnalysis_single_request_witness :
  calls (retryImageAnalysis Samples.pow Samples.random
           (fun _ => Ok (RecoverableFacts.failure_response NO_PRICE_DETECTED
                           "Could not clearly detect price information" 422))
           "AAAA" "image/png" no_options) = 1%nat.
Proof.
  exact (proj1 (proj2 (retryImageAnalysis_single_request
           Samples.pow Samples.random
           (fun _ => Ok (RecoverableFacts.failure_response NO_PRICE_DETECTED
                           "Could not clearly detect price information" 422))
           "AAAA" "image/png" no_options
           (RecoverableFacts.failure_response NO_PRICE_DETECTED
              "Could not clearly detect price information" 422)
           eq_refl eq_refl eq_refl)
           _ eq_refl eq_refl eq_refl)).
Defined.

End AnalysisMore.

(** ** Circuit breaker: counting *)

Module BreakerMore.
Import CircuitBreakerFacts.

Lemma closed_below_threshold (threshold timeout : Z) (b : CircuitBreaker) :
  1 <= threshold ->
  reachable threshold timeout b ->
  state b = CLOSED -> failures b < threshold.
Proof.
  intros Hth Hr.
  induction Hr as [|T b now operation later Hb IH
                   |T b now operation later b' Hb IH Hp].
  - cbn. lia.
  - destruct (reachable_invariant _ _ _ Hb) as [Hbth [_ [_ _]]].
    destruct (execute_cases b now operation later)
      as [[Hs [Ht ->]] | [b1 [Hb1 [Ht [Hp Hop]]]]].
    + cbn. exact IH.
    + assert (Hf : failureThreshold b1 = threshold
                   /\ failures b1 = failures b).
      { subst b1. destruct (state b); cbn; auto. }
      destruct Hf as [Hth1 Hf1].
      destruct (operation tt) as [v|e]; destruct Hop as [_ ->]; cbn.
      { lia. }
      rewrite Hth1, Hf1.
      destruct (Z.leb_spec threshold (failures b + 1)); [discriminate|].
      intros _. lia.
  - destruct (execute_cases b now operation later)
      as [[Hs [Ht Hx]] | [b1 [Hb1 [Ht [Hp' Hop]]]]].
    + rewrite Hx in Hp. discriminate Hp.
    + rewrite Hp' in Hp. injection Hp as <-. subst b1.
      destruct (state b) eqn:Hs; cbn; try discriminate;
        rewrite Hs; exact IH.
Qed.

(** X7. In every state a breaker with a threshold of at least 1 reaches
    by [execute] calls, the state is CLOSED exactly when failures is
    below failureThreshold; failures is never negative, and the two
    parameters keep the values the breaker was created with. *)
Theorem closed_iff_below_threshold (threshold timeout : Z)
    (b : CircuitBreaker) :
  1 <= threshold ->
  reachable threshold timeout b ->
  (state b = CLOSED <-> failures b < threshold)
  /\ 0 <= failures b
  /\ failureThreshold b = threshold
  /\ recoveryTimeout b = timeout.
Proof.
  intros Hth Hr.
  destruct (reachable_invariant _ _ _ Hr) as [H1 [H2 [H3 H4]]].
  split; [|auto].
  split; [apply (closed_below_threshold threshold timeout b Hth Hr)|].
  intros Hlt. destruct (state b) eqn:Hs; [reflexivity| |].
  - assert (threshold <= failures b)
      by (apply H4; left; exact Hs). lia.
  - assert (threshold <= failures b)
      by (apply H4; right; exact Hs). lia.
Qed.

Lemma closed_iff_below_threshold_witness :
  state tripped = OPEN /\ ~ failures tripped < 1.
Proof.
  assert (Hr : reachable 1 1000 tripped).
  { apply (reach_executed 1 1000 string _ 0 failing 0). apply reach_new. }
  destruct (closed_iff_below_threshold 1 1000 tripped ltac:(lia) Hr)
    as [[_ Hc] _].
  split; [reflexivity|].
  intros Hlt. specialize (Hc Hlt). discriminate Hc.
Defined.

(** Whether every call of a sequence got its operation invoked. *)
Fixpoint invoked_all {T} (b : CircuitBreaker) (cs : list (Call T)) : bool :=
  match cs with
  | [] => true
  | c :: r =>
      match probed (execute_call b c) with
      | Some _ => invoked_all (breaker (execute_call b c)) r
      | None => false
      end
  end.

Lemma below_threshold {T} (cs : list (Call T)) : forall b,
  state b = CLOSED -> Forall fails cs ->
  failures b + Z.of_nat (length cs) < failureThreshold b ->
  state (execute_all b cs) = CLOSED
  /\ failures (execute_all b cs) = failures b + Z.of_nat (length cs)
  /\ invoked_all b cs = true.
Proof.
  induction cs as [|c r IH]; intros b Hc Hall Hlt.
  - cbn. repeat split; [exact Hc | lia].
  - inversion Hall as [|c' r' [e He] Hr]; subst.
    cbn [execute_all invoked_all length] in *.
    unfold execute_call in *. unfold execute. rewrite Hc, He.
    cbn [breaker probed].
    assert (Hb1 : state (onFailure b (settled c)) = CLOSED
                  /\ failures (onFailure b (settled c)) = failures b + 1
                  /\ failureThreshold (onFailure b (settled c))
                     = failureThreshold b).
    { unfold onFailure. cbn.
      destruct (Z.leb_spec (failureThreshold b) (failures b + 1)); [lia|].
      auto. }
    destruct Hb1 as [Hs1 [Hf1 Hth1]].
    destruct (IH (onFailure b (settled c)) Hs1 Hr) as [H1 [H2 H3]].
    { rewrite Hf1, Hth1. lia. }
    split; [exact H1|]. split; [lia | exact H3].
Qed.

(** X8. Fewer consecutive failures than failureThreshold leave a CLOSED
    breaker CLOSED: every operation is invoked and each failure adds one
    to the count. *)
Theorem breaker_stays_closed_below_threshold (T : Type)
    (b : CircuitBreaker) (cs : list (Call T)) :
  state b = CLOSED -> Forall fails cs ->
  failures b + Z.of_nat (length cs) < failureThreshold b ->
  state (execute_all b cs) = CLOSED
  /\ failures (execute_all b cs) = failures b + Z.of_nat (length cs)
  /\ invoked_all b cs = true.
Proof. intros Hc Hall Hlt. apply below_threshold; assumption. Qed.

Lemma breaker_stays_closed_below_threshold_witness :
  state (execute_all (new_CircuitBreaker 2 1000) [failing_call 0]) = CLOSED.
Proof.
  refine (proj1 (breaker_stays_closed_below_threshold string
                   (new_CircuitBreaker 2 1000) [failing_call 0]
                   eq_refl _ _)).
  - repeat constructor. eexists. reflexivity.
  - cbn. lia.
Defined.

(** X9. A call that is let through and succeeds returns the operation's
    value and leaves the breaker CLOSED with failures = 0, from any
    state: a successful probe after the recovery timeout closes an OPEN
    breaker. The time of the last failure is kept. *)
Theorem success_closes_and_resets (T : Type) (b : CircuitBreaker)
    (now later : Z) (operation : unit -> result T exn) (v : T) :
  operation tt = Ok v ->
  (state b = OPEN -> recoveryTimeout b < now - lastFailureTime b) ->
  execute b now operation later
  = {| returned := Ok v;
       breaker := {| failures := 0;
                     lastFailureTime := lastFailureTime b;
                     state := CLOSED;
                     failureThreshold := failureThreshold b;
                     recoveryTimeout := recoveryTimeout b |};
       probed := Some (match state b with
                       | OPEN => set_state b HALF_OPEN
                       | _ => b
                       end) |}.
Proof.
  intros Hop Ht. unfold execute. rewrite Hop.
  destruct (state b) eqn:Hs; try reflexivity.
  specialize (Ht eq_refl).
  destruct (Z.gtb_spec (now - lastFailureTime b) (recoveryTimeout b)); [|lia].
  reflexivity.
Qed.

Lemma success_closes_and_resets_witness :
  state (breaker (execute tripped 2000 (fun _ => Ok "success") 2100)) = CLOSED.
Proof.
  rewrite (success_closes_and_resets string tripped 2000 2100
             (fun _ => Ok "success") "success" eq_refl);
    [reflexivity|].
  intros _. vm_compute. reflexivity.
Defined.

(** X10. The breaker counts calls, not attempts: a call of
    [resilientApiCall] with default options whose operation fails with a
    retryable error at every invocation invokes the operation three
    times, and adds one to the failure count of a breaker that is not
    OPEN. *)
Theorem breaker_counts_calls_not_attempts
    (Math_pow : number -> number -> number) (Math_random : nat -> number)
    (T : Type) (b : CircuitBreaker) (now later : Z)
    (operation : nat -> result T exn) (e : nat -> AppError) :
  state b <> OPEN ->
  (forall i, operation i = Throw (AppErr (e i))) ->
  (forall i, ERROR_CATEGORIES (code (e i)) <> USER_ERROR) ->
  let x := resilientApiCall Math_pow Math_random b now operation
             no_options later in
  returned (fst x) = Throw (AppErr (e 2%nat))
  /\ failures (breaker (fst x)) = failures b + 1
  /\ exists r, snd x = Some r /\ calls r = 3%nat.
Proof.
  intros Hs Hop Hcat x. subst x.
  assert (Hre : forall i,
    shouldRetryError (exn_code (AppErr (e i)))
      [NETWORK_ERROR; API_RATE_LIMIT; API_ERROR] = true).
  { intros i. specialize (Hcat i). cbn.
    destruct (code (e i)); cbn in *; congruence. }
  assert (Hrun :
    outcome (retryApiCall Math_pow Math_random operation no_options)
    = Throw (AppErr (e 2%nat))
    /\ calls (retryApiCall Math_pow Math_random operation no_options)
       = 3%nat).
  { unfold retryApiCall, retryWithBackoff. cbn.
    change (Z.to_nat 3) with 3%nat. cbn [attempts].
    rewrite !Hop. cbn [default retryableErrors].
    rewrite !Hre. cbn. split; reflexivity. }
  destruct Hrun as [Hout Hcalls].
  unfold resilientApiCall, execute. rewrite Hout.
  destruct (state b) eqn:Hsb; [| congruence |]; cbn;
    (repeat split; [eexists; split; [reflexivity | exact Hcalls]]).
Qed.

Lemma breaker_counts_calls_not_attempts_witness :
  failures (breaker (fst (resilientApiCall Samples.pow Samples.random
                            apiCircuitBreaker 0
                            (Samples.always_fails Samples.network_error)
                            no_options 9000))) = 1.
Proof.
  exact (proj1 (proj2 (breaker_counts_calls_not_attempts
           Samples.pow Samples.random string apiCircuitBreaker 0 9000
           (Samples.always_fails Samples.network_error)
           (fun _ => Samples.network_error)
           ltac:(discriminate) (fun _ => eq_refl)
           (fun _ => ltac:(discriminate))))).
Defined.

End BreakerMore.

(** ** Errors *)

Module ErrorMore.

(** X11. Every error [createAppError] makes keeps the given code, has a
    non-empty message and the userMessage of the code's table entry,
    which is not empty either, whatever the caller supplies; without
    custom suggestions it carries at least three suggestions, and its
    suggestions are empty only when the caller passes an empty list. *)
Theorem createAppError_never_blank (c : ErrorCode)
    (originalMessage : option string)
    (customSuggestions : option (list string)) :
  let e := createAppError c originalMessage customSuggestions in
  code e = c
  /\ message e <> ""
  /\ userMessage e = info_message (ERROR_MESSAGES c)
  /\ userMessage e <> ""
  /\ (originalMessage = Some "" -> message e = userMessage e)
  /\ (customSuggestions = None -> (3 <= length (suggestions e))%nat)
  /\ (suggestions e = [] <-> customSuggestions = Some []).
Proof.
  cbv zeta. split; [reflexivity|].
  split.
  { destruct originalMessage as [[|a r]|]; destruct c; cbn; discriminate. }
  split; [reflexivity|].
  split; [destruct c; cbn; discriminate|].
  split; [intros ->; reflexivity|].
  split.
  { intros ->. destruct c; cbn; lia. }
  destruct customSuggestions as [l|]; cbn.
  - split; [intros ->; reflexivity | intros [= ->]; reflexivity].
  - split; [destruct c; discriminate | discriminate].
Qed.

(** X12. Under the API retry strategy an error is retryable exactly when
    the category of its code is not USER_ERROR. For the errors
    [createAppError] makes, a non-retryable error is always recoverable,
    and API_ERROR is the only code whose errors are retryable and not
    recoverable. *)
Theorem retryable_iff_not_user_error :
  (forall e : AppError,
      isRetryableError e API_RETRY_STRATEGY = true
      <-> getErrorCategory (code e) <> USER_ERROR)
  /\ (forall c m s,
        isRetryableError (createAppError c m s) API_RETRY_STRATEGY = false ->
        isRecoverableError (createAppError c m s) = true)
  /\ (forall c m s,
        (isRetryableError (createAppError c m s) API_RETRY_STRATEGY = true
         /\ isRecoverableError (createAppError c m s) = false)
        <-> c = API_ERROR).
Proof.
  split; [|split].
  - intros e. unfold isRetryableError, getErrorCategory.
    destruct (code e); cbn; split; congruence.
  - intros c m s. destruct c; cbn; congruence.
  - intros c m s. destruct c; cbn; split;
      try (intros [H1 H2]; congruence); try discriminate; auto.
Qed.

End ErrorMore.

(** ** From validated data to the displayed unit price *)

Module PipelineMore.
Import WeightNormalizer UnitPriceCalculator UnitPriceDisplay DataExtractor.
Import WeightNormalizerFacts.

Lemma normalize_unit (w : WeightField) (nw : NormalizedWeight) :
  normalize w = Ok nw ->
  isValidUnit (weight_unit w) = true
  /\ PrimFloat.leb (weight_value w) 0 = false
  /\ nw_unit nw = (if includes ["g"; "kg"] (weight_unit w) then "kg" else "l")
  /\ (includes ["kg"; "l"] (weight_unit w) = true ->
      nw_value nw = weight_value w).
Proof.
  unfold normalize.
  destruct (isValidUnit (weight_unit w)); [|discriminate].
  destruct (PrimFloat.leb (weight_value w) 0); [discriminate|].
  cbn [negb]. unfold includes. cbn [existsb].
  destruct (String.eqb_spec (weight_unit w) "g") as [->|?];
    [intros [= <-]; cbn; repeat split; auto; discriminate|].
  destruct (String.eqb_spec (weight_unit w) "kg") as [->|?];
    [intros [= <-]; cbn; repeat split; auto|].
  destruct (String.eqb_spec (weight_unit w) "ml") as [->|?];
    [intros [= <-]; cbn; repeat split; auto; discriminate|].
  destruct (String.eqb_spec (weight_unit w) "l") as [->|?];
    [intros [= <-]; cbn; repeat split; auto|].
  discriminate.
Qed.

Lemma calculate_fields (p : PriceField) (nw : NormalizedWeight)
    (r : UnitPriceResult) :
  calculate p nw = Ok r ->
  upr_unit r = nw_unit nw /\ upr_currency r = price_currency p
  /\ originalPrice r = price_value p /\ originalWeight r = nw.
Proof.
  unfold calculate.
  destruct (PrimFloat.leb (price_value p) 0); [discriminate|].
  destruct (PrimFloat.leb (nw_value nw) 0); [discriminate|].
  intros [= <-]. auto.
Qed.

Lemma currencyConfig_lookup (c : string) :
  currencyConfig !! c
  = if String.eqb c "EUR" then Some {| symbol := "€"; position := after |}
    else if String.eqb c "USD" then Some {| symbol := "$"; position := before |}
    else if String.eqb c "GBP" then Some {| symbol := "£"; position := before |}
    else if String.eqb c "JPY" then Some {| symbol := "¥"; position := before |}
    else None.
Proof.
  unfold currencyConfig.
  repeat match goal with
         | |- context [String.eqb c ?k] =>
             destruct (String.eqb_spec c k) as [-> | ?];
             [ apply lookup_insert_eq
             | rewrite lookup_insert_ne by congruence ]
         end.
  apply lookup_empty.
Qed.

(** X13. The displayed unit price of a weight that [normalize] accepted
    and a price that [calculate] accepted is the formatted pricePerUnit
    in the price's currency followed by "/kg" when the label's unit is g
    or kg, and by "/L" when it is ml or l. *)
Theorem formatUnitPrice_of_pipeline (h : Host)
    (number_format : string -> nat -> number -> string)
    (w : WeightField) (p : PriceField) (nw : NormalizedWeight)
    (r : UnitPriceResult) (locale : string) :
  normalize w = Ok nw ->
  calculate p nw = Ok r ->
  formatUnitPrice h number_format r locale
  = bind (formatPrice h number_format (pricePerUnit r) (price_currency p)
            locale)
      (fun formattedPrice =>
         Ok (formattedPrice
             ++ (if includes ["g"; "kg"] (weight_unit w)
                 then "/kg" else "/L"))).
Proof.
  intros Hn Hc.
  destruct (normalize_unit w nw Hn) as [_ [_ [Hu _]]].
  destruct (calculate_fields p nw r Hc) as [Hru [Hrc _]].
  unfold formatUnitPrice. rewrite Hru, Hrc, Hu.
  destruct (includes ["g"; "kg"] (weight_unit w)); reflexivity.
Qed.

Definition half_litre : WeightField :=
  {| weight_value := 500; weight_unit := "ml"; weight_confidence := 0.9 |}.

Definition one_euro : PriceField :=
  {| price_value := 1; price_currency := "EUR"; price_confidence := 0.9 |}.

Definition show (locale : string) (decimals : nat) (x : number) : string :=
  "#".

Lemma formatUnitPrice_of_pipeline_witness :
  formatUnitPrice SampleHost.host show
    {| pricePerUnit := 2; upr_unit := "l"; upr_currency := "EUR";
       originalPrice := 1;
       originalWeight := {| nw_value := 0.5; nw_unit := "l";
                            originalValue := 500; originalUnit := "ml" |} |}
    "es-ES"
  = Ok "#€/L".
Proof.
  exact (formatUnitPrice_of_pipeline SampleHost.host show half_litre one_euro
           _ _ "es-ES" eq_refl eq_refl).
Defined.

(** X14. The three currency tables agree: a code is supported exactly
    when [getSupportedCurrencies] lists it, and [formatPrice] writes a
    listed currency with the listed symbol, after the number for EUR and
    before it for the others. An unsupported code is written itself
    before the number when the prototype chain of the table does not
    answer it with a truthy value; a code it does answer, such as
    constructor, is written with what that value has as [symbol]:
    "undefined" before the number when it has neither [position] nor
    [symbol]. *)
Theorem currency_tables_agree (h : Host)
    (number_format : string -> nat -> number -> string) :
  (forall c, isSupportedCurrency c = true
             <-> exists i, In i getSupportedCurrencies /\ info_code i = c)
  /\ (forall i x locale,
        In i getSupportedCurrencies ->
        formatPrice h number_format x (info_code i) locale
        = Ok (if String.eqb (info_code i) "EUR"
              then number_format locale 2%nat x ++ info_symbol i
              else info_symbol i ++ number_format locale 2%nat x))
  /\ (forall c x locale,
        isSupportedCurrency c = false ->
        ToBoolean (inherited h c) = false ->
        formatPrice h number_format x c locale
        = Ok (c ++ number_format locale 2%nat x))
  /\ (forall c x locale,
        isSupportedCurrency c = false ->
        ToBoolean (inherited h c) = true ->
        get h (inherited h c) "position" = Ok VUndefined ->
        get h (inherited h c) "symbol" = Ok VUndefined ->
        formatPrice h number_format x c locale
        = Ok ("undefined" ++ number_format locale 2%nat x)).
Proof.
  assert (Hnone : forall c, isSupportedCurrency c = false ->
                            currencyConfig !! c = None).
  { intros c. rewrite currencyConfig_lookup.
    unfold isSupportedCurrency, includes. cbn [existsb].
    repeat match goal with
           | |- context [String.eqb c ?k] =>
               destruct (String.eqb_spec c k) as [-> | ?];
               [ cbn; discriminate | ]
           end.
    reflexivity. }
  split; [|split; [|split]].
  - intros c. unfold isSupportedCurrency, includes. cbn [existsb]. split.
    + repeat match goal with
             | |- context [String.eqb c ?k] =>
                 destruct (String.eqb_spec c k) as [-> | ?];
                 [ intros _; cbn;
                   first
                     [ eexists; split; [left; reflexivity | reflexivity]
                     | eexists; split;
                       [right; left; reflexivity | reflexivity]
                     | eexists; split;
                       [right; right; left; reflexivity | reflexivity]
                     | eexists; split;
                       [right; right; right; left; reflexivity
                       | reflexivity] ]
                 | ]
             end.
      cbn. discriminate.
    + intros [i [Hi <-]]. cbn in Hi.
      repeat destruct Hi as [<- | Hi]; try reflexivity. contradiction.
  - intros i x locale Hi. cbn in Hi.
    repeat destruct Hi as [<- | Hi]; try reflexivity. contradiction.
  - intros c x locale Hc Hfalse. unfold formatPrice.
    rewrite (Hnone c Hc), Hfalse. reflexivity.
  - intros c x locale Hc Htrue Hpos Hsym. unfold formatPrice.
    rewrite (Hnone c Hc), Htrue, Hpos. cbn [bind]. rewrite Hsym.
    reflexivity.
Qed.

Lemma currency_tables_agree_witness :
  formatPrice SampleHost.host show 5 "XYZ" "es-ES" = Ok "XYZ#"
  /\ formatPrice SampleHost.host show 5 "constructor" "es-ES"
     = Ok "undefined#".
Proof.
  split.
  - exact (proj1 (proj2 (proj2 (currency_tables_agree SampleHost.host show)))
             "XYZ" 5%float "es-ES" eq_refl eq_refl).
  - exact (proj2 (proj2 (proj2 (currency_tables_agree SampleHost.host show)))
             "constructor" 5%float "es-ES" eq_refl eq_refl eq_refl eq_refl).
Defined.

(** X15. Two products whose weights [normalize] accepted and whose
    prices [calculate] accepted are refused by [calculatePriceDifference]
    for their units exactly when one label is a weight (g, kg) and the
    other a volume (ml, l). *)
Theorem comparable_iff_same_domain
    (w1 w2 : WeightField) (p1 p2 : PriceField)
    (n1 n2 : NormalizedWeight) (r1 r2 : UnitPriceResult) :
  normalize w1 = Ok n1 -> normalize w2 = Ok n2 ->
  calculate p1 n1 = Ok r1 -> calculate p2 n2 = Ok r2 ->
  (exists u1 u2,
      calculatePriceDifference r1 r2 = Throw (Cannot_compare_units u1 u2))
  <-> within_domain (weight_unit w1) (weight_unit w2) = false.
Proof.
  intros Hn1 Hn2 Hc1 Hc2.
  destruct (normalize_unit w1 n1 Hn1) as [Hv1 [_ [Hu1 _]]].
  destruct (normalize_unit w2 n2 Hn2) as [Hv2 [_ [Hu2 _]]].
  destruct (calculate_fields p1 n1 r1 Hc1) as [Hr1 _].
  destruct (calculate_fields p2 n2 r2 Hc2) as [Hr2 _].
  unfold calculatePriceDifference. rewrite Hr1, Hr2, Hu1, Hu2.
  unfold within_domain.
  unfold isValidUnit, includes in *. cbn [existsb] in *.
  clear Hn1 Hn2 Hc1 Hc2 Hu1 Hu2 Hr1 Hr2.
  revert Hv1 Hv2.
  generalize (weight_unit w1) as a1, (weight_unit w2) as a2.
  intros a1 a2 Hv1 Hv2.
  destruct (String.eqb_spec a1 "g") as [->|?];
  [|destruct (String.eqb_spec a1 "kg") as [->|?];
  [|destruct (String.eqb_spec a1 "ml") as [->|?];
  [|destruct (String.eqb_spec a1 "l") as [->|?];
  [|discriminate Hv1]]]];
  (destruct (String.eqb_spec a2 "g") as [->|?];
  [|destruct (String.eqb_spec a2 "kg") as [->|?];
  [|destruct (String.eqb_spec a2 "ml") as [->|?];
  [|destruct (String.eqb_spec a2 "l") as [->|?];
  [|discriminate Hv2]]]]);
  cbn; split; try reflexivity; try discriminate;
    try (intros _; do 2 eexists; reflexivity);
    intros [u1 [u2 H]];
    repeat match type of H with
           | (if ?b then _ else _) = _ => destruct b
           end; discriminate H.
Qed.

Lemma comparable_iff_same_domain_witness :
  exists u1 u2,
    calculatePriceDifference
      {| pricePerUnit := 5; upr_unit := "kg"; upr_currency := "EUR";
         originalPrice := 2.5;
         originalWeight := {| nw_value := 0.5; nw_unit := "kg";
                              originalValue := 500; originalUnit := "g" |} |}
      {| pricePerUnit := 2; upr_unit := "l"; upr_currency := "EUR";
         originalPrice := 1;
         originalWeight := {| nw_value := 0.5; nw_unit := "l";
                              originalValue := 500; originalUnit := "ml" |} |}
    = Throw (Cannot_compare_units u1 u2).
Proof.
  exact (proj2 (comparable_iff_same_domain
           {| weight_value := 500; weight_unit := "g";
              weight_confidence := 0.9 |}
           half_litre
           {| price_value := 2.5; price_currency := "EUR";
              price_confidence := 0.9 |}
           one_euro _ _ _ _ eq_refl eq_refl eq_refl eq_refl) eq_refl).
Defined.

End PipelineMore.

(** ** Validation of extracted data: further properties *)

Module ValidationMore.
Import WeightNormalizer UnitPriceCalculator DataExtractor AnalyzeRoute.
Import PipelineMore.

Lemma length_zero_empty (s : string) :
  (String_length s =? 0)%nat = String.eqb s "".
Proof.
  destruct s as [|c r]; [reflexivity|].
  unfold String_length. cbn [length_from].
  change (0 <? 0)%nat with false. cbn [andb]. unfold lead.
  repeat destruct (_ <? _)%nat; reflexivity.
Qed.

(** X16. Every error [validateExtractedData] returns is a user error:
    its code is NO_PRICE_DETECTED, NO_WEIGHT_DETECTED or
    NO_PRODUCT_DETECTED, it is recoverable, and its message, userMessage
    and suggestions are not empty. *)
Theorem validateExtractedData_user_errors (d : ExtractedData) (e : AppError) :
  validateExtractedData d = Some e ->
  (code e = NO_PRICE_DETECTED \/ code e = NO_WEIGHT_DETECTED
   \/ code e = NO_PRODUCT_DETECTED)
  /\ ERROR_CATEGORIES (code e) = USER_ERROR
  /\ recoverable e = true
  /\ message e <> "" /\ userMessage e <> "" /\ suggestions e <> [].
Proof.
  unfold validateExtractedData.
  repeat match goal with
         | |- (if ?b then _ else _) = _ -> _ => destruct b
         end;
    try discriminate; intros [= <-]; cbn;
    repeat split; auto; discriminate.
Qed.

Lemma validateExtractedData_user_errors_witness :
  exists e,
    validateExtractedData {| price := None; weight := None; product := None |}
    = Some e
    /\ recoverable e = true.
Proof.
  eexists. split; [reflexivity|].
  exact (proj1 (proj2 (proj2 (validateExtractedData_user_errors
           {| price := None; weight := None; product := None |} _
           eq_refl)))).
Defined.

(** X17. Data that [validateExtractedData] accepts has a price and a
    weight, [normalize] accepts the weight and yields kg or l, and
    [calculate] never rejects the price: it succeeds when the label's
    unit is kg or l, and otherwise can only reject a normalized weight
    (the value divided by 1000) that is not above zero. *)
Theorem validated_data_normalizes (d : ExtractedData) :
  validateExtractedData d = None ->
  exists p w nw,
    price d = Some p /\ weight d = Some w
    /\ normalize w = Ok nw
    /\ (nw_unit nw = "kg" \/ nw_unit nw = "l")
    /\ match calculate p nw with
       | Ok r => originalWeight r = nw /\ upr_currency r = price_currency p
       | Throw err =>
           err = Invalid_normalized_weight_value
                   (PrimFloat.div (weight_value w) 1000)
           /\ (weight_unit w = "g" \/ weight_unit w = "ml")
       end.
Proof.
  unfold validateExtractedData.
  destruct (price d) as [p|]; [|discriminate].
  destruct (PrimFloat.leb (price_value p) 0) eqn:Hp; [discriminate|].
  destruct (String.eqb (price_currency p) ""); [discriminate|]. cbn [orb].
  destruct (weight d) as [w|]; [|discriminate].
  destruct (PrimFloat.leb (weight_value w) 0) eqn:Hw; [discriminate|].
  destruct (String.eqb (weight_unit w) ""); [discriminate|]. cbn [orb].
  destruct (includes ["g"; "kg"; "ml"; "l"] (weight_unit w)) eqn:Hu;
    [|discriminate]. cbn [negb].
  intros _. exists p, w.
  unfold normalize, isValidUnit. rewrite Hu, Hw. cbn [negb].
  unfold calculate. rewrite Hp.
  unfold includes in Hu. cbn [existsb] in Hu.
  destruct (String.eqb_spec (weight_unit w) "g") as [Hg|?].
  { eexists. repeat split; auto. cbn.
    destruct (PrimFloat.leb (PrimFloat.div (weight_value w) 1000) 0);
      cbn; auto. }
  destruct (String.eqb_spec (weight_unit w) "kg") as [Hkg|?].
  { eexists. repeat split; auto. cbn. rewrite Hw. cbn. auto. }
  destruct (String.eqb_spec (weight_unit w) "ml") as [Hml|?].
  { eexists. repeat split; auto. cbn.
    destruct (PrimFloat.leb (PrimFloat.div (weight_value w) 1000) 0);
      cbn; auto. }
  destruct (String.eqb_spec (weight_unit w) "l") as [Hl|?].
  { eexists. repeat split; auto. cbn. rewrite Hw. cbn. auto. }
  discriminate Hu.
Qed.

(** A label of 5e-324 g: the smallest double, whose thousandth is 0. *)
Definition speck : ExtractedData :=
  {| price := Some {| price_value := 1; price_currency := "EUR";
                      price_confidence := 0.9 |};
     weight := Some {| weight_value := 0x1p-1074; weight_unit := "g";
                       weight_confidence := 0.9 |};
     product := Some {| product_name := "Sal"; product_brand := "";
                        product_confidence := 0.9 |} |}.

Lemma validated_data_normalizes_witness :
  validateExtractedData speck = None
  /\ exists p w nw,
       price speck = Some p /\ weight speck = Some w
       /\ normalize w = Ok nw
       /\ calculate p nw = Throw (Invalid_normalized_weight_value 0).
Proof.
  split; [reflexivity|].
  destruct (validated_data_normalizes speck eq_refl)
    as [p [w [nw [Hp [Hw [Hn _]]]]]].
  exists p, w, nw. repeat split; auto.
  injection Hp as <-. injection Hw as <-. cbn in Hn. injection Hn as <-.
  reflexivity.
Defined.

Definition bad_price (p : PriceField) : bool :=
  PrimFloat.ltb (price_confidence p) 0.3 || PrimFloat.leb (price_value p) 0.

Definition bad_weight (w : WeightField) : bool :=
  PrimFloat.ltb (weight_confidence w) 0.3 || PrimFloat.leb (weight_value w) 0.

Definition bad_product (pr : ProductField) : bool :=
  PrimFloat.ltb (product_confidence pr) 0.3 || String.eqb (product_name pr) "".

Definition POST_check_expected (p : PriceField) (w : WeightField)
    (pr : ProductField) : AnalyzeResponse :=
  let names :=
    ((if bad_price p then ["price information"] else [])
     ++ (if bad_weight w then ["weight/volume information"] else [])
     ++ (if bad_product pr then ["product name"] else []))%list in
  if bad_price p || bad_weight w || bad_product pr then
    let c := if bad_price p then NO_PRICE_DETECTED
             else if bad_weight w then NO_WEIGHT_DETECTED
             else NO_PRODUCT_DETECTED in
    {| success := false; data := None;
       error := Some {| err_code := c;
                        err_message :=
                          "Could not clearly detect " ++ join ", " names;
                        err_suggestions :=
                          Some (info_suggestions (ERROR_MESSAGES c)) |};
       status := 422 |}
  else
    {| success := true;
       data := Some {| price := Some p; weight := Some w;
                       product := Some pr |};
       error := None; status := 200 |}.

Lemma POST_check_cases (p : PriceField) (w : WeightField) (pr : ProductField) :
  POST_check p w pr = POST_check_expected p w pr.
Proof.
  unfold POST_check, POST_check_expected, bad_price, bad_weight, bad_product.
  destruct (PrimFloat.ltb (price_confidence p) 0.3 ||
            PrimFloat.leb (price_value p) 0);
    destruct (PrimFloat.ltb (weight_confidence w) 0.3 ||
              PrimFloat.leb (weight_value w) 0);
    destruct (PrimFloat.ltb (product_confidence pr) 0.3 ||
              String.eqb (product_name pr) "");
    reflexivity.
Qed.

(** X18. The check of [POST] accepts the data exactly when no field has
    a confidence below 0.3, a value at most zero or an empty name, and
    then returns the data unchanged; otherwise it answers with status
    422 and no data, with the code of the first bad field in the order
    price, weight, product, whatever else is bad, with that code's
    suggestions, and with a message that names every bad field. *)
Theorem POST_check_verdict (p : PriceField) (w : WeightField)
    (pr : ProductField) :
  let names :=
    ((if bad_price p then ["price information"] else [])
     ++ (if bad_weight w then ["weight/volume information"] else [])
     ++ (if bad_product pr then ["product name"] else []))%list in
  if bad_price p || bad_weight w || bad_product pr then
    POST_check p w pr
    = let c := if bad_price p then NO_PRICE_DETECTED
               else if bad_weight w then NO_WEIGHT_DETECTED
               else NO_PRODUCT_DETECTED in
      {| success := false; data := None;
         error := Some {| err_code := c;
                          err_message :=
                            "Could not clearly detect " ++ join ", " names;
                          err_suggestions :=
                            Some (info_suggestions (ERROR_MESSAGES c)) |};
         status := 422 |}
  else
    POST_check p w pr
    = {| success := true;
         data := Some {| price := Some p; weight := Some w;
                         product := Some pr |};
         error := None; status := 200 |}.
Proof.
  cbv zeta. rewrite POST_check_cases. unfold POST_check_expected.
  destruct (bad_price p || bad_weight w || bad_product pr); reflexivity.
Qed.

(** X19. On data the check of [POST] accepted, [validateExtractedData]
    finds nothing exactly when the currency is not empty, the unit is
    one of g, kg, ml, l, and the product name is not only white space;
    it never reports NO_PRICE_DETECTED there unless the currency is
    empty. *)
Theorem route_accepted_then_client_check (p : PriceField) (w : WeightField)
    (pr : ProductField) (d : ExtractedData) :
  success (POST_check p w pr) = true ->
  data (POST_check p w pr) = Some d ->
  (validateExtractedData d = None
   <-> price_currency p <> "" /\ isValidUnit (weight_unit w) = true
       /\ trim (product_name pr) <> "")
  /\ (forall e, validateExtractedData d = Some e ->
        code e = NO_PRICE_DETECTED -> price_currency p = "").
Proof.
  assert (Hv :
    if bad_price p || bad_weight w || bad_product pr
    then success (POST_check p w pr) = false
    else POST_check p w pr
         = {| success := true;
              data := Some {| price := Some p; weight := Some w;
                              product := Some pr |};
              error := None; status := 200 |}).
  { rewrite POST_check_cases. unfold POST_check_expected.
    destruct (bad_price p || bad_weight w || bad_product pr); reflexivity. }
  unfold bad_price, bad_weight, bad_product in Hv.
  destruct (PrimFloat.leb (price_value p) 0) eqn:Hp.
  { rewrite orb_true_r in Hv. cbn in Hv. rewrite Hv. discriminate. }
  destruct (PrimFloat.leb (weight_value w) 0) eqn:Hw.
  { rewrite (orb_true_r (PrimFloat.ltb (weight_confidence w) 0.3)) in Hv.
    rewrite orb_true_r in Hv. cbn in Hv. rewrite Hv. discriminate. }
  destruct (String.eqb_spec (product_name pr) "") as [Hn|Hn].
  { rewrite !orb_true_r in Hv. rewrite Hv. discriminate. }
  rewrite !orb_false_r in Hv.
  destruct (PrimFloat.ltb (price_confidence p) 0.3 ||
            PrimFloat.ltb (weight_confidence w) 0.3 ||
            PrimFloat.ltb (product_confidence pr) 0.3);
    rewrite Hv; [discriminate|].
  intros _ [= <-]. unfold validateExtractedData, isValidUnit.
  cbn [price weight product]. rewrite Hp, Hw. cbn [orb].
  rewrite length_zero_empty.
  destruct (String.eqb_spec (price_currency p) "") as [Hc|Hc].
  { split.
    - split; [discriminate | intros [H _]; contradiction].
    - auto. }
  destruct (String.eqb_spec (weight_unit w) "") as [Hu|Hu].
  { rewrite Hu. split.
    - split; [discriminate | intros [_ [H _]]; discriminate H].
    - intros e [= <-]. discriminate. }
  destruct (includes ["g"; "kg"; "ml"; "l"] (weight_unit w)); cbn [negb].
  - destruct (String.eqb_spec (product_name pr) "") as [|_]; [contradiction|].
    cbn [orb].
    destruct (String.eqb_spec (trim (product_name pr)) "") as [Ht|Ht].
    + split.
      * split; [discriminate | intros [_ [_ H]]; contradiction].
      * intros e [= <-]. discriminate.
    + split; [split; auto | discriminate].
  - split.
    + split; [discriminate | intros [_ [H _]]; discriminate H].
    + intros e [= <-]. discriminate.
Qed.

(** A product name that is one NO-BREAK SPACE (U+00A0). *)
Definition no_break_space : string :=
  String "194"%char (String "160"%char "").

Lemma route_accepted_then_client_check_witness :
  let p := {| price_value := 2.5; price_currency := "EUR";
              price_confidence := 0.9 |} in
  let w := {| weight_value := 500; weight_unit := "g";
              weight_confidence := 0.9 |} in
  let pr := {| product_name := no_break_space; product_brand := "";
               product_confidence := 0.85 |} in
  success (POST_check p w pr) = true
  /\ validateExtractedData
       {| price := Some p; weight := Some w; product := Some pr |} <> None.
Proof.
  intros p w pr. split; [reflexivity|].
  intros H.
  destruct (proj1 (proj1 (route_accepted_then_client_check p w pr _
                            eq_refl eq_refl)) H) as [_ [_ Hn]].
  apply Hn. reflexivity.
Defined.

End ValidationMore.

(** ** Image validation *)

Module ImageMore.
Import Security SecureImageProcessing.

Definition base64_or_pad (c : ascii) : bool := is_base64_char c || is_pad c.

Lemma filter_string_id (f : ascii -> bool) (s : string) :
  forall_string f s = true -> filter_string f s = s.
Proof.
  induction s as [|c r IH]; cbn; [reflexivity|].
  destruct (f c); cbn; [|discriminate].
  intros H. rewrite (IH H). reflexivity.
Qed.



Lemma regex_forall (s : string) :
  base64Regex_test s = true -> forall_string base64_or_pad s = true.
Proof.
  unfold base64Regex_test, base64_or_pad.
  induction s as [|c r IH]; cbn [drop_while forall_string]; [reflexivity|].
  destruct (is_base64_char c) eqn:Hc; cbn [orb andb].
  - exact IH.
  - intros H.
    destruct (String.eqb_spec (String c r) "") as [He|_]; [discriminate He|].
    destruct (String.eqb_spec (String c r) "=") as [He|_].
    { injection He as -> ->. reflexivity. }
    destruct (String.eqb_spec (String c r) "==") as [He|_].
    { injection He as -> ->. reflexivity. }
    discriminate H.
Qed.

Lemma forall_string_impl (f g : ascii -> bool) (s : string) :
  (forall c, f c = true -> g c = true) ->
  forall_string f s = true -> forall_string g s = true.
Proof.
  intros Hfg. induction s as [|c r IH]; cbn; [reflexivity|].
  destruct (f c) eqn:Hc; cbn; [|discriminate].
  rewrite (Hfg c Hc). exact IH.
Qed.

Lemma forall_string_filter (f g : ascii -> bool) (s : string) :
  forall_string f s = true -> forall_string f (filter_string g s) = true.
Proof.
  induction s as [|c r IH]; cbn; [reflexivity|].
  destruct (f c) eqn:Hc; cbn; [|discriminate].
  intros H. destruct (g c); cbn; [rewrite Hc|]; auto.
Qed.

Lemma base64_or_pad_one_byte (c : ascii) :
  base64_or_pad c = true -> (byte c <? 192)%nat = true.
Proof.
  destruct c as [[] [] [] [] [] [] [] []]; vm_compute; intros H;
    first [reflexivity | exact H].
Qed.

(** A string of one-byte characters has as many code units as bytes. *)
Lemma String_length_one_byte (s : string) :
  forall_string (fun c => (byte c <? 192)%nat) s = true ->
  String_length s = String.length s.
Proof.
  unfold String_length.
  induction s as [|c r IH]; cbn [forall_string length_from String.length];
    [reflexivity|].
  change (0 <? 0)%nat with false. cbn [andb]. unfold lead.
  destruct (byte c <? 192)%nat; cbn; [|discriminate].
  intros H. rewrite (IH H). reflexivity.
Qed.

Lemma String_length_matched (s : string) :
  base64Regex_test s = true ->
  String_length (filter_string (fun c => negb (is_pad c)) s)
  = String.length (filter_string (fun c => negb (is_pad c)) s).
Proof.
  intros H. apply String_length_one_byte. apply forall_string_filter.
  apply (forall_string_impl base64_or_pad); [apply base64_or_pad_one_byte|].
  apply regex_forall. exact H.
Qed.

Lemma sanitizeBase64_matched (s : string) :
  base64Regex_test s = true -> sanitizeBase64 s = s.
Proof.
  intros H. unfold sanitizeBase64. fold base64_or_pad.
  apply filter_string_id. apply regex_forall. exact H.
Qed.


Fixpoint no_comma (s : string) : bool :=
  match s with
  | String c r => negb (Ascii.eqb c ","%char) && no_comma r
  | EmptyString => true
  end.

Lemma append_cons (c : ascii) (r x : string) :
  (String c r ++ x) = String c (r ++ x).
Proof. reflexivity. Qed.

Lemma after_comma_app (pre rest : string) :
  no_comma pre = true ->
  after_comma (pre ++ String ","%char rest) = Some rest.
Proof.
  induction pre as [|c r IH]; [reflexivity|].
  rewrite append_cons. cbn [no_comma after_comma].
  destruct (Ascii.eqb c ","%char); cbn [negb andb]; [discriminate|]. exact IH.
Qed.

Lemma until_comma_app (pay rest : string) :
  no_comma pay = true ->
  until_comma pay = pay
  /\ until_comma (pay ++ String ","%char rest) = pay.
Proof.
  induction pay as [|c r IH]; [intros _; split; reflexivity|].
  rewrite append_cons. cbn [no_comma until_comma].
  destruct (Ascii.eqb c ","%char); cbn [negb andb]; [discriminate|].
  intros H. destruct (IH H) as [H1 H2]. rewrite H1, H2. auto.
Qed.

Lemma after_comma_none (s : string) :
  no_comma s = true -> after_comma s = None.
Proof.
  induction s as [|c r IH]; cbn; [reflexivity|].
  destruct (Ascii.eqb c ","%char); cbn; [discriminate|]. exact IH.
Qed.

(** X21. The base64 part of a data URL is what lies between its first
    comma and its second comma or its end: for a header and a payload
    without commas, [base64_part] of header, comma, payload is the
    payload, also when more text follows after another comma; a string
    without a comma is taken whole. *)
Theorem base64_part_of_data_url (header payload rest : string) :
  no_comma header = true -> no_comma payload = true ->
  base64_part (header ++ "," ++ payload) = payload
  /\ base64_part (header ++ "," ++ payload ++ "," ++ rest) = payload
  /\ base64_part payload = payload.
Proof.
  intros Hh Hp. unfold base64_part.
  change ("," ++ payload) with (String ","%char payload).
  change ("," ++ payload ++ "," ++ rest)
    with (String ","%char (payload ++ String ","%char rest)).
  rewrite !(after_comma_app header _ Hh).
  destruct (until_comma_app payload rest Hp) as [H1 H2].
  rewrite H1, H2, (after_comma_none payload Hp). auto.
Qed.

Lemma base64_part_of_data_url_witness :
  base64_part "data:image/png;base64,iVBORw0KGgo=" = "iVBORw0KGgo=".
Proof.
  exact (proj1 (base64_part_of_data_url "data:image/png;base64"
                  "iVBORw0KGgo=" "" eq_refl eq_refl)).
Defined.

(** X22. What [validateAndSanitizeImage] accepts: the type is one of the
    three allowed ones, the base64 part of the data matches the base64
    pattern and is returned unchanged as sanitizedData, the reported size
    is three quarters of its length without padding, rounded down, and is
    at most 5 MiB, so the part has at most 6990507 characters besides
    padding. What it rejects has an error text and no sanitizedData. *)
Theorem validateAndSanitizeImage_verdict (in_browser : bool)
    (imageData mimeType : string) :
  let r := validateAndSanitizeImage in_browser imageData mimeType in
  let part := base64_part imageData in
  (isValid r = true ->
     includes ALLOWED_MIME_TYPES mimeType = true
     /\ base64Regex_test part = true
     /\ sanitizedData r = Some part
     /\ validation_error r = None
     /\ metadata r = {| meta_size := getBase64Size part;
                        meta_type := mimeType |}
     /\ 0 <= getBase64Size part <= 5242880
     /\ Z.of_nat
          (String.length (filter_string (fun c => negb (is_pad c)) part))
        <= 6990507)
  /\ (isValid r = false ->
        sanitizedData r = None /\ validation_error r <> None).
Proof.
  cbv zeta. unfold validateAndSanitizeImage.
  destruct (includes ALLOWED_MIME_TYPES mimeType); cbn [negb];
    [|split; [discriminate | intros _; split; [reflexivity | discriminate]]].
  destruct (isValidBase64 in_browser (base64_part imageData)) eqn:Hv;
    cbn [negb];
    [|split; [discriminate | intros _; split; [reflexivity | discriminate]]].
  destruct (Z.gtb_spec (getBase64Size (base64_part imageData)) MAX_IMAGE_SIZE)
    as [Hgt|Hle];
    [split; [discriminate | intros _; split; [reflexivity | discriminate]]|].
  split; [|discriminate]. intros _.
  assert (Hre : base64Regex_test (base64_part imageData) = true).
  { unfold isValidBase64 in Hv.
    destruct (base64Regex_test (base64_part imageData));
      [reflexivity | discriminate Hv]. }
  split; [reflexivity|]. split; [exact Hre|].
  cbn [sanitizedData validation_error metadata].
  rewrite (sanitizeBase64_matched _ Hre).
  split; [reflexivity|]. split; [reflexivity|]. split; [reflexivity|].
  unfold getBase64Size, MAX_IMAGE_SIZE in *.
  rewrite (String_length_matched _ Hre) in *.
  set (n := String.length
              (filter_string (fun c => negb (is_pad c))
                 (base64_part imageData))) in *.
  split.
  - split; [apply Z.div_pos; lia | lia].
  - change (5 * 1024 * 1024) with 5242880 in Hle.
    Z.div_mod_to_equations. lia.
Qed.

Lemma validateAndSanitizeImage_verdict_witness :
  sanitizedData
    (validateAndSanitizeImage true "data:image/png;base64,iVBORw0KGgo="
       "image/png")
  = Some "iVBORw0KGgo=".
Proof.
  exact (proj1 (proj2 (proj2 (proj1
           (validateAndSanitizeImage_verdict true
              "data:image/png;base64,iVBORw0KGgo=" "image/png")
           eq_refl)))).
Defined.

(** X23. The check made in a browser is the stricter one: every image
    that [validateAndSanitizeImage] accepts in a browser, where [atob]
    must decode the data, it accepts outside one, with the same result. *)
Theorem browser_accepted_then_server_accepted (imageData mimeType : string) :
  isValid (validateAndSanitizeImage true imageData mimeType) = true ->
  validateAndSanitizeImage false imageData mimeType
  = validateAndSanitizeImage true imageData mimeType.
Proof.
  unfold validateAndSanitizeImage.
  destruct (includes ALLOWED_MIME_TYPES mimeType); cbn [negb];
    [|discriminate].
  unfold isValidBase64.
  destruct (base64Regex_test (base64_part imageData)); cbn [negb];
    [|discriminate].
  destruct (atob_returns (base64_part imageData)); cbn [negb];
    [reflexivity | discriminate].
Qed.

Lemma browser_accepted_then_server_accepted_witness :
  isValid (validateAndSanitizeImage false
             "data:image/png;base64,iVBORw0KGgo=" "image/png") = true.
Proof.
  rewrite (browser_accepted_then_server_accepted
             "data:image/png;base64,iVBORw0KGgo=" "image/png" eq_refl).
  reflexivity.
Defined.

End ImageMore.

(** ** The answers of /api/analyze *)

Module PostMore.
Import Security SecureImageProcessing AnalyzePost AnalyzeRoute.
Import ImageMore ValidationMore.

(** The pairs of error code and HTTP status the route answers with. *)
Definition answer_kinds : list (ErrorCode * Z) :=
  [ (INVALID_IMAGE_FORMAT, 400);
    (NO_PRICE_DETECTED, 422); (NO_WEIGHT_DETECTED, 422);
    (NO_PRODUCT_DETECTED, 422);
    (API_ERROR, 401); (API_RATE_LIMIT, 429); (NETWORK_ERROR, 500) ].

Definition accepted (r : AnalyzeResponse) : Prop :=
  success r = true /\ status r = 200 /\ error r = None
  /\ exists d, data r = Some d.

Definition refused (r : AnalyzeResponse) : Prop :=
  success r = false /\ data r = None
  /\ exists b l,
       error r = Some b
       /\ In (err_code b, status r) answer_kinds
       /\ err_message b <> ""
       /\ err_suggestions b = Some l /\ l <> [].

Definition network_failure : AnalyzeResponse :=
  error_response
    (createAppError NETWORK_ERROR (Some "Network or server error") None) 500.

Definition authentication_failure : AnalyzeResponse :=
  error_response
    (createAppError API_ERROR (Some "API authentication failed") None) 401.

Definition rate_limited : AnalyzeResponse :=
  error_response
    (createAppError API_RATE_LIMIT (Some "API rate limit exceeded") None) 429.

Lemma handle_thrown_cases (t : Thrown) :
  handle_thrown t = authentication_failure
  \/ handle_thrown t = rate_limited
  \/ handle_thrown t = network_failure.
Proof.
  destruct t as [msg|e]; cbn; [|auto].
  destruct (contains msg "API key"); [auto|].
  destruct (contains msg "quota" || contains msg "rate"); auto.
Qed.

Lemma handle_thrown_refused (t : Thrown) : refused (handle_thrown t).
Proof.
  destruct (handle_thrown_cases t) as [-> | [-> | ->]];
    (split; [reflexivity|]; split; [reflexivity|];
     do 2 eexists; split; [reflexivity|]; cbn;
     repeat split; auto 10; discriminate).
Qed.

Lemma POST_check_accepted_or_refused p w pr :
  accepted (POST_check p w pr) \/ refused (POST_check p w pr).
Proof.
  rewrite POST_check_cases. unfold POST_check_expected.
  destruct (bad_price p || bad_weight w || bad_product pr) eqn:Hb.
  - right. split; [reflexivity|]. split; [reflexivity|].
    do 2 eexists. split; [reflexivity|]. cbn [err_code status err_message].
    split.
    { destruct (bad_price p); [cbn; auto|].
      destruct (bad_weight w); cbn; auto 10. }
    split; [discriminate|].
    split; [reflexivity|].
    destruct (bad_price p); [discriminate|].
    destruct (bad_weight w); discriminate.
  - left. repeat split. eexists. reflexivity.
Qed.

(** X24. Every request gets one of two kinds of answer: a success with
    status 200 and the data, or a refusal without data whose error has a
    message, suggestions and one of seven pairs of code and status:
    INVALID_IMAGE_FORMAT/400, NO_PRICE_DETECTED, NO_WEIGHT_DETECTED or
    NO_PRODUCT_DETECTED/422, API_ERROR/401, API_RATE_LIMIT/429 and
    NETWORK_ERROR/500. The route never answers IMAGE_TOO_LARGE, and it
    answers INVALID_IMAGE_FORMAT only when the image or its type is
    missing or empty. *)
Theorem POST_answers (cached : option SecurityConfig) (env : Env)
    (body : result AnalyzeRequest string) (ai : string -> string -> AiReply) :
  let r := response (POST cached env body ai) in
  (accepted r \/ refused r)
  /\ (forall b, error r = Some b -> err_code b <> IMAGE_TOO_LARGE)
  /\ (forall b, error r = Some b -> err_code b = INVALID_IMAGE_FORMAT ->
        exists rq, body = Ok rq
                   /\ (image rq = None \/ image rq = Some ""
                       \/ imageType rq = None \/ imageType rq = Some "")).
Proof.
  cbv zeta.
  assert (Hth : forall t,
    (accepted (handle_thrown t) \/ refused (handle_thrown t))
    /\ (forall b, error (handle_thrown t) = Some b ->
          err_code b <> IMAGE_TOO_LARGE /\ err_code b <> INVALID_IMAGE_FORMAT)).
  { intros t. split; [right; apply handle_thrown_refused|].
    intros b. destruct (handle_thrown_cases t) as [-> | [-> | ->]];
      intros [= <-]; cbn; split; discriminate. }
  assert (Hck : forall p w pr b,
    error (POST_check p w pr) = Some b ->
    err_code b <> IMAGE_TOO_LARGE /\ err_code b <> INVALID_IMAGE_FORMAT).
  { intros p w pr b. rewrite POST_check_cases. unfold POST_check_expected.
    destruct (bad_price p || bad_weight w || bad_product pr);
      [|discriminate].
    intros [= <-]. cbn.
    destruct (bad_price p); [split; discriminate|].
    destruct (bad_weight w); split; discriminate. }
  unfold POST.
  destruct (match cached with
            | Some c => Ok c
            | None => validateEnvironmentSecurity env
            end) as [c|msg].
  2:{ cbn [response]. destruct (Hth (ThrownError msg)) as [H1 H2].
      split; [exact H1|]. split.
      - intros b Hb. apply (H2 b Hb).
      - intros b Hb Hc. destruct (H2 b Hb) as [_ H]. contradiction. }
  destruct body as [rq|msg].
  2:{ cbn [response]. destruct (Hth (ThrownError msg)) as [H1 H2].
      split; [exact H1|]. split.
      - intros b Hb. apply (H2 b Hb).
      - intros b Hb Hc. destruct (H2 b Hb) as [_ H]. contradiction. }
  assert (Hmissing :
    (accepted
       (error_response
          (createAppError INVALID_IMAGE_FORMAT
             (Some "Missing image data or type") None) 400)
     \/ refused
          (error_response
             (createAppError INVALID_IMAGE_FORMAT
                (Some "Missing image data or type") None) 400))).
  { right. split; [reflexivity|]. split; [reflexivity|].
    do 2 eexists. split; [reflexivity|]. cbn.
    repeat split; auto; discriminate. }
  destruct (image rq) as [[|i0 i]|] eqn:Hi;
    try (cbn [response]; split; [exact Hmissing|];
         split; [intros b [= <-]; cbn; discriminate|];
         intros b _ _; exists rq; split; [reflexivity|]; auto).
  destruct (imageType rq) as [[|t0 t]|] eqn:Ht;
    try (cbn [response]; split; [exact Hmissing|];
         split; [intros b [= <-]; cbn; discriminate|];
         intros b _ _; exists rq; split; [reflexivity|]; auto).
  cbn [response].
  destruct (settled_to
              (processImage false (String i0 i) (String t0 t) (analyze ai)))
    as [[[p w] pr]|thrown].
  - split; [apply POST_check_accepted_or_refused|]. split.
    + intros b Hb. apply (Hck p w pr b Hb).
    + intros b Hb Hc. destruct (Hck p w pr b Hb) as [_ H]. contradiction.
  - destruct (Hth thrown) as [H1 H2]. split; [exact H1|]. split.
    + intros b Hb. apply (H2 b Hb).
    + intros b Hb Hc. destruct (H2 b Hb) as [_ H]. contradiction.
Qed.

Definition initialized (cached : option SecurityConfig) (env : Env) : Prop :=
  exists c, match cached with
            | Some c' => Ok c'
            | None => validateEnvironmentSecurity env
            end = Ok c.

(** X25. An [AppError] that the processor throws is not an [Error]: when
    the image is valid and the reply of the model is not JSON, or is an
    object without price, weight or product, the client is answered
    NETWORK_ERROR with status 500 and the message "Network or server
    error", not the API_ERROR that was thrown. *)
Theorem unreadable_reply_answered_as_network_error
    (cached : option SecurityConfig) (env : Env) (rq : AnalyzeRequest)
    (i t : string) (ai : string -> string -> AiReply) :
  initialized cached env ->
  image rq = Some i -> imageType rq = Some t -> i <> "" ->
  isValid (validateAndSanitizeImage false i t) = true ->
  match ai (base64_part i) t with
  | AiThrows _ => False
  | AiNotJson => True
  | AiJson d => price d = None \/ weight d = None \/ product d = None
  end ->
  response (POST cached env (Ok rq) ai) = network_failure
  /\ ai_request (POST cached env (Ok rq) ai) = Some (base64_part i, t).
Proof.
  intros [c Hc] Hi Ht Hine Hv Hai. unfold POST. rewrite Hc, Hi, Ht.
  assert (Hallowed : includes ALLOWED_MIME_TYPES t = true
                     /\ sanitizedData (validateAndSanitizeImage false i t)
                        = Some (base64_part i)).
  { revert Hv. unfold validateAndSanitizeImage.
    destruct (includes ALLOWED_MIME_TYPES t); cbn [negb]; [|discriminate].
    unfold isValidBase64.
    destruct (base64Regex_test (base64_part i)) eqn:Hre; cbn [negb];
      [|discriminate].
    destruct (getBase64Size (base64_part i) >? MAX_IMAGE_SIZE);
      [discriminate|].
    intros _. cbn. rewrite (sanitizeBase64_matched _ Hre). auto. }
  destruct Hallowed as [Hal Hs].
  destruct t as [|t0 t']; [discriminate Hal|].
  destruct i as [|i0 i']; [contradiction|].
  unfold processImage. rewrite Hv, Hs.
  change (default "" (Some (base64_part (String i0 i'))))
    with (base64_part (String i0 i')).
  cbn [negb].
  assert (Han : exists e,
    analyze ai (base64_part (String i0 i')) (String t0 t')
    = Throw (ThrownAppError e)).
  { unfold analyze.
    change (includes ["image/jpeg"; "image/png"; "image/webp"])
      with (includes ALLOWED_MIME_TYPES). rewrite Hal. cbn [negb].
    destruct (ai (base64_part (String i0 i')) (String t0 t')) as [msg| |d];
      [contradiction | eauto |].
    destruct Hai as [H | [H | H]]; rewrite H;
      try destruct (price d); try destruct (weight d); eauto. }
  destruct Han as [e ->].
  cbn [settled_to processor_input response ai_request handle_thrown].
  change (includes ["image/jpeg"; "image/png"; "image/webp"])
    with (includes ALLOWED_MIME_TYPES). rewrite Hal. auto.
Qed.

Definition valid_request : AnalyzeRequest :=
  {| image := Some "data:image/png;base64,iVBORw0KGgo=";
     imageType := Some "image/png" |}.

Definition working_env : Env :=
  {| GEMINI_API_KEY := Some "AIzaSy-0123456789"; NODE_ENV := None |}.

Lemma unreadable_reply_answered_as_network_error_witness :
  exists b,
    error (response (POST None working_env (Ok valid_request)
                       (fun _ _ => AiNotJson))) = Some b
    /\ err_code b = NETWORK_ERROR.
Proof.
  rewrite (proj1 (unreadable_reply_answered_as_network_error
                    None working_env valid_request
                    "data:image/png;base64,iVBORw0KGgo=" "image/png"
                    (fun _ _ => AiNotJson)
                    (ex_intro _ _ eq_refl) eq_refl eq_refl
                    ltac:(discriminate) eq_refl I)).
  eexists. split; reflexivity.
Defined.

Lemma accepted_image_facts (in_browser : bool) (i t : string) :
  isValid (validateAndSanitizeImage in_browser i t) = true ->
  includes ALLOWED_MIME_TYPES t = true
  /\ base64Regex_test (base64_part i) = true
  /\ sanitizedData (validateAndSanitizeImage in_browser i t)
     = Some (base64_part i)
  /\ getBase64Size (base64_part i) <= MAX_IMAGE_SIZE.
Proof.
  unfold validateAndSanitizeImage.
  destruct (includes ALLOWED_MIME_TYPES t); cbn [negb]; [|discriminate].
  unfold isValidBase64.
  destruct (base64Regex_test (base64_part i)) eqn:Hre; cbn [negb];
    [|discriminate].
  destruct (if in_browser then atob_returns (base64_part i) else true);
    cbn [negb]; [|discriminate].
  destruct (Z.gtb_spec (getBase64Size (base64_part i)) MAX_IMAGE_SIZE);
    [discriminate|].
  intros _. cbn. rewrite (sanitizeBase64_matched _ Hre). auto.
Qed.




(** X27. The model is only asked about data that passed validation:
    whenever it is asked, the request has an image and a type, the type
    is one of the three allowed ones, and what the model is given is the
    base64 part of the image, which matches the base64 pattern, has no
    character outside the alphabet and "=", and decodes to at most
    5 MiB. A success means that the model was asked. *)
Theorem model_only_asked_about_validated_data
    (cached : option SecurityConfig) (env : Env)
    (body : result AnalyzeRequest string) (ai : string -> string -> AiReply) :
  (forall d m,
      ai_request (POST cached env body ai) = Some (d, m) ->
      exists rq i,
        body = Ok rq /\ image rq = Some i /\ imageType rq = Some m
        /\ d = base64_part i
        /\ includes ALLOWED_MIME_TYPES m = true
        /\ base64Regex_test d = true
        /\ forall_string base64_or_pad d = true
        /\ getBase64Size d <= 5242880)
  /\ (success (response (POST cached env body ai)) = true ->
      ai_request (POST cached env body ai) <> None).
Proof.
  unfold POST.
  destruct (match cached with
            | Some c => Ok c
            | None => validateEnvironmentSecurity env
            end) as [c|msg].
  2:{ split; [discriminate|].
      cbn [response]. destruct (handle_thrown_cases (ThrownError msg))
        as [-> | [-> | ->]]; discriminate. }
  destruct body as [rq|msg].
  2:{ split; [discriminate|].
      cbn [response]. destruct (handle_thrown_cases (ThrownError msg))
        as [-> | [-> | ->]]; discriminate. }
  destruct (image rq) as [[|i0 i]|] eqn:Hi;
    try (split; [discriminate | cbn; discriminate]).
  destruct (imageType rq) as [[|t0 t]|] eqn:Ht;
    try (split; [discriminate | cbn; discriminate]).
  cbn [ai_request response].
  unfold processImage.
  destruct (isValid (validateAndSanitizeImage false (String i0 i)
                       (String t0 t))) eqn:Hv; cbn [negb].
  2:{ split; [discriminate|]. cbn [settled_to].
      match goal with
      | |- context [handle_thrown ?x] =>
          destruct (handle_thrown_cases x) as [-> | [-> | ->]]
      end; discriminate. }
  destruct (accepted_image_facts false _ _ Hv) as [Hal [Hre [Hs Hsz]]].
  rewrite Hs.
  change (default "" (Some (base64_part (String i0 i))))
    with (base64_part (String i0 i)).
  assert (Hin :
    forall A (x : Processing A),
      processor_input x = Some (base64_part (String i0 i), String t0 t) ->
      (forall d m,
          match processor_input x with
          | Some (d0, m0) =>
              if includes ["image/jpeg"; "image/png"; "image/webp"] m0
              then Some (d0, m0) else None
          | None => None
          end = Some (d, m) ->
          exists rq' i',
            Ok (E := string) rq = Ok rq' /\ image rq' = Some i'
            /\ imageType rq' = Some m
            /\ d = base64_part i'
            /\ includes ALLOWED_MIME_TYPES m = true
            /\ base64Regex_test d = true
            /\ forall_string base64_or_pad d = true
            /\ getBase64Size d <= 5242880)
      /\ match processor_input x with
         | Some (d0, m0) =>
             if includes ["image/jpeg"; "image/png"; "image/webp"] m0
             then Some (d0, m0) else None
         | None => None
         end <> None).
  { intros A x ->.
    change (includes ["image/jpeg"; "image/png"; "image/webp"])
      with (includes ALLOWED_MIME_TYPES). rewrite Hal.
    split; [|discriminate].
    intros d m [= <- <-]. exists rq, (String i0 i).
    repeat split; auto. apply regex_forall. exact Hre. }
  destruct (analyze ai (base64_part (String i0 i)) (String t0 t))
    as [[[p w] pr]|thrown];
    match goal with
    | |- context [processor_input ?x] =>
        destruct (Hin _ x eq_refl) as [H1 H2]
    end;
    (split; [exact H1 | intros _; exact H2]).
Qed.

End PostMore.

(** ** Backoff delays *)

Module BackoffMore.

Lemma SFcompare_antisym (a b : spec_float) :
  SFcompare b a = match SFcompare a b with
                  | Some c => Some (CompOpp c)
                  | None => None
                  end.
Proof.
  destruct a as [sa|sa| |sa ma ea], b as [sb|sb| |sb mb eb]; cbn;
    try destruct sa; try destruct sb; cbn; try reflexivity;
    rewrite (Z.compare_antisym ea eb);
    destruct (ea ?= eb)%Z; cbn; try reflexivity;
    rewrite (Pos.compare_cont_antisym ma mb Eq); reflexivity.
Qed.

Lemma SFcompare_refl (a : spec_float) :
  a <> S754_nan -> SFcompare a a = Some Eq.
Proof.
  destruct a as [s|s| |s m e]; cbn; intros H;
    try destruct s; try reflexivity; try contradiction;
    rewrite Z.compare_refl, Pos.compare_cont_refl; reflexivity.
Qed.

Lemma not_nan_spec (x : number) :
  is_nan x = false -> Prim2SF x <> S754_nan.
Proof.
  unfold is_nan. rewrite FloatAxioms.eqb_spec. unfold SFeqb. intros H Hn.
  rewrite Hn in H. discriminate H.
Qed.

(** [Math.min] of two numbers, none of them NaN, is one of them and is
    at most each of them. *)
Lemma Math_min_spec (a b : number) :
  is_nan a = false -> is_nan b = false ->
  (Math_min a b = a \/ Math_min a b = b)
  /\ PrimFloat.leb (Math_min a b) a = true
  /\ PrimFloat.leb (Math_min a b) b = true.
Proof.
  intros Ha Hb. unfold Math_min. rewrite Ha, Hb. cbn [orb].
  pose proof (SFcompare_refl _ (not_nan_spec a Ha)) as Raa.
  pose proof (SFcompare_refl _ (not_nan_spec b Hb)) as Rbb.
  pose proof (SFcompare_antisym (Prim2SF a) (Prim2SF b)) as Hanti.
  assert (Laa : PrimFloat.leb a a = true)
    by (rewrite FloatAxioms.leb_spec; unfold SFleb; rewrite Raa; reflexivity).
  assert (Lbb : PrimFloat.leb b b = true)
    by (rewrite FloatAxioms.leb_spec; unfold SFleb; rewrite Rbb; reflexivity).
  assert (Hab : PrimFloat.ltb a b
                = match SFcompare (Prim2SF a) (Prim2SF b) with
                  | Some Lt => true | _ => false end)
    by (rewrite FloatAxioms.ltb_spec; reflexivity).
  assert (Hba : PrimFloat.ltb b a
                = match SFcompare (Prim2SF a) (Prim2SF b) with
                  | Some Gt => true | _ => false end).
  { rewrite FloatAxioms.ltb_spec. unfold SFltb. rewrite Hanti.
    destruct (SFcompare (Prim2SF a) (Prim2SF b)) as [[| |]|]; reflexivity. }
  assert (Lab : PrimFloat.leb a b
                = match SFcompare (Prim2SF a) (Prim2SF b) with
                  | Some (Lt | Eq) => true | _ => false end)
    by (rewrite FloatAxioms.leb_spec; reflexivity).
  assert (Lba : PrimFloat.leb b a
                = match SFcompare (Prim2SF a) (Prim2SF b) with
                  | Some (Gt | Eq) => true | _ => false end).
  { rewrite FloatAxioms.leb_spec. unfold SFleb. rewrite Hanti.
    destruct (SFcompare (Prim2SF a) (Prim2SF b)) as [[| |]|]; reflexivity. }
  assert (Hsome : exists c, SFcompare (Prim2SF a) (Prim2SF b) = Some c).
  { pose proof (not_nan_spec a Ha) as Na.
    pose proof (not_nan_spec b Hb) as Nb.
    destruct (Prim2SF a) as [sa|sa| |sa ma ea];
      destruct (Prim2SF b) as [sb|sb| |sb mb eb];
      try contradiction; cbn; eauto. }
  destruct Hsome as [c Hc].
  rewrite Hab, Hba. rewrite Hc in *.
  generalize (get_sign a) as sg. intros sg.
  destruct c, sg; cbn in Lab, Lba |- *;
    (split; [auto | split]); congruence.
Qed.

(** X28. When neither the computed delay nor maxDelay is NaN,
    [calculateBackoffDelay] returns the smaller of the two: one of them,
    at most maxDelay and at most the computed delay
    baseDelay * multiplier^(attempt - 1). *)
Theorem backoff_delay_capped
    (Math_pow : number -> number -> number)
    (attempt : Z) (baseDelay multiplier maxDelay : number) :
  let delay :=
    PrimFloat.mul baseDelay (Math_pow multiplier (of_Z (attempt - 1))) in
  let d := calculateBackoffDelay Math_pow attempt baseDelay multiplier
             maxDelay in
  is_nan delay = false -> is_nan maxDelay = false ->
  (d = delay \/ d = maxDelay)
  /\ PrimFloat.leb d maxDelay = true
  /\ PrimFloat.leb d delay = true.
Proof.
  intros delay d Hd Hm. subst d. unfold calculateBackoffDelay.
  fold delay.
  destruct (Math_min_spec delay maxDelay Hd Hm) as [H1 [H2 H3]]. auto.
Qed.

Lemma backoff_delay_capped_witness :
  PrimFloat.leb (calculateBackoffDelay Samples.pow 10 1000 2 5000) 5000 = true.
Proof.
  exact (proj1 (proj2 (backoff_delay_capped Samples.pow 10 1000 2 5000
                         eq_refl eq_refl))).
Defined.

End BackoffMore.

(** ** The navigation reducer *)

Module NavigationMore.
Import Navigation.

(** A sequence of dispatched actions, each with the reading of
    [Date.now()] at its dispatch. *)
Definition dispatch_all (s : AppState) (acts : list (Z * Action)) : AppState :=
  fold_left (fun st na => navigationReducer (fst na) st (snd na)) acts s.

Fixpoint completed_results (acts : list (Z * Action))
  : list UnitPriceResult :=
  match acts with
  | [] => []
  | (_, COMPLETE_PROCESSING r) :: rest => r :: completed_results rest
  | _ :: rest => completed_results rest
  end.

Lemma take_app_take {A} (n m : nat) (l h : list A) :
  (n <= length l + m)%nat ->
  take n (l ++ take m h)%list = take n (l ++ h)%list.
Proof.
  intros Hn. rewrite !take_app, take_take.
  replace (Nat.min (n - length l) m) with (n - length l)%nat by lia.
  reflexivity.
Qed.

Lemma history_step (now : Z) (s : AppState) (a : Action) :
  history (navigationReducer now s a)
  = match a with
    | COMPLETE_PROCESSING r => r :: take 9 (history s)
    | _ => history s
    end.
Proof. destruct a; reflexivity. Qed.

(** X29. The history holds the results of the COMPLETE_PROCESSING
    actions dispatched so far, newest first, cut to ten entries; no other
    action (RESET and RETRY included) changes it. *)
Theorem history_keeps_last_ten (s : AppState) (acts : list (Z * Action)) :
  (length (history s) <= 10)%nat ->
  history (dispatch_all s acts)
  = take 10 (rev (completed_results acts) ++ history s)%list
  /\ (length (history (dispatch_all s acts)) <= 10)%nat.
Proof.
  intros Hlen.
  assert (Heq : history (dispatch_all s acts)
                = take 10 (rev (completed_results acts) ++ history s)%list).
  { revert s Hlen. induction acts as [|[now a] acts IH]; intros s Hlen.
    - cbn. symmetry. apply take_ge. exact Hlen.
    - change (dispatch_all s ((now, a) :: acts))
        with (dispatch_all (navigationReducer now s a) acts).
      rewrite IH.
      + rewrite history_step.
        destruct a as [| ? ? ? |r| ? | | | ? | ? | ?]; try reflexivity.
        cbn [completed_results rev].
        rewrite <- app_assoc. cbn [app].
        change (r :: take 9 (history s))
          with ([r] ++ take 9 (history s))%list.
        change (r :: history s) with ([r] ++ history s)%list.
        rewrite !app_assoc.
        apply take_app_take. rewrite length_app. cbn. lia.
      + rewrite history_step. destruct a; try exact Hlen.
        cbn. rewrite length_take. lia. }
  split; [exact Heq|].
  rewrite Heq, length_take. lia.
Qed.

Definition sample_result (p : number) : UnitPriceResult :=
  {| pricePerUnit := p; upr_unit := "kg"; upr_currency := "EUR";
     originalPrice := p;
     originalWeight :=
       {| nw_value := 1; nw_unit := "kg"; originalValue := 1000;
          originalUnit := "g" |} |}.

Lemma history_keeps_last_ten_witness :
  history (dispatch_all createInitialState
             [(0, START_PROCESSING);
              (5, COMPLETE_PROCESSING (sample_result 1));
              (6, RESET);
              (7, START_PROCESSING);
              (9, COMPLETE_PROCESSING (sample_result 2))])
  = [sample_result 2; sample_result 1].
Proof.
  exact (proj1 (history_keeps_last_ten createInitialState
                  [(0, START_PROCESSING);
                   (5, COMPLETE_PROCESSING (sample_result 1));
                   (6, RESET);
                   (7, START_PROCESSING);
                   (9, COMPLETE_PROCESSING (sample_result 2))]
                  (Nat.le_0_l 10))).
Defined.

End NavigationMore.

(** ** The extraction hook *)

Module ExtractMore.
Import ErrorHandling RetryUtils DataExtractor UseDataExtractor.

Lemma attempts_ok_from_operation
    (Math_pow : number -> number -> number) (Math_random : nat -> number)
    {T : Type} (operation : nat -> result T exn) (opts : RetryOptions)
    (n : nat) : forall a i last v,
  outcome (attempts Math_pow Math_random operation opts n a i last) = Ok v ->
  exists j, operation j = Ok v.
Proof.
  induction n as [|n IH]; intros a i last v; cbn; [discriminate|].
  destruct (operation i) as [w|e] eqn:Hop; cbn.
  - intros H. exists i. congruence.
  - destruct (negb _); cbn; [discriminate|].
    destruct (match maxRetries opts with Some m => a =? m | None => false end);
      cbn; [discriminate|].
    apply IH.
Qed.

Lemma analysisCall_ok fetch_analyze opts j r :
  analysisCall fetch_analyze opts j = Ok r ->
  fetch_analyze j = Ok r /\ success r = true.
Proof.
  unfold analysisCall.
  destruct (fetch_analyze j) as [r'|msg]; [|discriminate].
  destruct (success r') eqn:Hs; cbn.
  - intros H. injection H as <-. auto.
  - destruct (RetryUtils.error r'); discriminate.
Qed.

(** X30. A run of [extractData] calls [onExtractionStart] once, then
    exactly one of [onExtractionError] and [onExtractionComplete], and
    resets [isExtracting] last. Completed data passed
    [validateExtractedData] and came from a successful answer of
    [/api/analyze]; at most 3 requests are made, and none for a file of
    more than 10 MiB, of an unsupported type, or that cannot be read. *)
Theorem extractData_reports_once
    (Math_pow : number -> number -> number) (Math_random : nat -> number)
    (reader : result string unit)
    (fetch_analyze : nat -> result AnalyzeResponse string) (file : File) :
  let x := extractData Math_pow Math_random reader fetch_analyze file in
  (exists middle,
      effects x = (entered ++ middle ++ [SetIsExtracting false])%list
      /\ ((exists e, middle = [SetError (Some e); OnExtractionError e])
          \/ (exists d,
                 middle = [OnExtractionComplete d]
                 /\ validateExtractedData d = None
                 /\ exists i r, fetch_analyze i = Ok r
                                /\ success r = true /\ data r = Some d)))
  /\ (requests x <= 3)%nat
  /\ (10485760 < file_size file ->
      x = failed (AppErr (createAppError IMAGE_TOO_LARGE None None)) 0)
  /\ (file_size file <= 10485760 ->
      includes ["image/jpeg"; "image/png"; "image/webp"] (file_type file)
      = false ->
      x = failed (AppErr (createAppError INVALID_IMAGE_FORMAT None None)) 0)
  /\ (forall u, reader = Throw u -> requests x = 0%nat).
Proof.
  intros x. subst x. unfold extractData.
  change (10 * 1024 * 1024) with 10485760.
  assert (Hfailed : forall e n,
    exists middle,
      effects (failed e n)
      = (entered ++ middle ++ [SetIsExtracting false])%list
      /\ ((exists e, middle = [SetError (Some e); OnExtractionError e])
          \/ (exists d,
                 middle = [OnExtractionComplete d]
                 /\ validateExtractedData d = None
                 /\ exists i r, fetch_analyze i = Ok r
                                /\ success r = true /\ data r = Some d))).
  { intros e n. exists [SetError (Some e); OnExtractionError e].
    split; [reflexivity|]. left. eauto. }
  destruct (Z.gtb_spec (file_size file) 10485760) as [Hbig|Hsmall].
  { split; [apply Hfailed|]. split; [cbn; lia|].
    split; [reflexivity|]. split; [lia|reflexivity]. }
  destruct (includes _ (file_type file)) eqn:Hty; cbn [negb].
  2:{ split; [apply Hfailed|]. split; [cbn; lia|].
      split; [lia|]. split; [reflexivity|reflexivity]. }
  destruct reader as [base64|u]; cbn [fileToBase64].
  2:{ split; [apply Hfailed|]. split; [cbn; lia|].
      split; [lia|]. split; [discriminate|reflexivity]. }
  set (run := retryImageAnalysis _ _ _ _ _ _).
  assert (Hcalls : (calls run <= 3)%nat).
  { subst run.
    unfold retryImageAnalysis, retryApiCall, retryWithBackoff, analysisOptions.
    cbn. apply RetryMore.attempts_calls_le. }
  assert (Hok : forall r, outcome run = Ok r ->
                  exists i, fetch_analyze i = Ok r /\ success r = true).
  { subst run. unfold retryImageAnalysis, retryApiCall, retryWithBackoff.
    intros r Hr. apply attempts_ok_from_operation in Hr.
    destruct Hr as [j Hj]. exists j. eapply analysisCall_ok. exact Hj. }
  assert (Hrest : forall y : Extraction,
            requests y = calls run ->
            (requests y <= 3)%nat
            /\ (10485760 < file_size file ->
                y = failed (AppErr (createAppError IMAGE_TOO_LARGE None None)) 0)
            /\ (file_size file <= 10485760 -> true = false ->
                y = failed
                      (AppErr (createAppError INVALID_IMAGE_FORMAT None None)) 0)
            /\ (forall u, @Ok string unit base64 = Throw u ->
                          requests y = 0%nat)).
  { intros y Hy. split; [lia|]. split; [lia|].
    split; [discriminate|discriminate]. }
  destruct (outcome run) as [r|e] eqn:Hout.
  2:{ split; [apply Hfailed|]. apply Hrest. reflexivity. }
  destruct (data r) as [d|] eqn:Hd.
  2:{ split; [apply Hfailed|]. apply Hrest. reflexivity. }
  destruct (validateExtractedData d) as [ve|] eqn:Hv.
  { split; [apply Hfailed|]. apply Hrest. reflexivity. }
  split; [|apply Hrest; reflexivity].
  exists [OnExtractionComplete d]. split; [reflexivity|]. right.
  exists d. split; [reflexivity|]. split; [exact Hv|].
  destruct (Hok r eq_refl) as [i [Hi Hs]]. exists i, r. auto.
Qed.

Definition huge_file : File :=
  {| file_size := 20000000; file_type := "image/png" |}.

Lemma extractData_reports_once_witness :
  extractData Samples.pow Samples.random (Ok "data:image/png;base64,AAAA")
    (fun _ => Throw "Failed to fetch") huge_file
  = failed (AppErr (createAppError IMAGE_TOO_LARGE None None)) 0.
Proof.
  apply (extractData_reports_once Samples.pow Samples.random
           (Ok "data:image/png;base64,AAAA")
           (fun _ => Throw "Failed to fetch") huge_file).
  reflexivity.
Defined.

End ExtractMore.
